(** * bluemix-go, package k8sclusterv1: the authenticated client core

    A shallow embedding of the request path of the container-service client
    ([clusterClient] in the client source of package k8sclusterv1):
    path normalisation ([cleanPath], [url]), projection of routing headers
    ([addToRequestHeader]), the verb primitives ([get], [put], [patch],
    [post], [delete]) and the dispatch routine [sendRequest] with its
    single token-refresh retry.

    Go strings are byte strings; they are [string] here and, where the
    code indexes them, [list ascii].  Go [int] status codes are [Z]. *)

From Stdlib Require Import ZArith List Ascii String Bool Lia.
From stdpp Require Import base gmap strings list fin_maps.

Local Open Scope list_scope.

(** ** Go's [path.Clean]

    [cleanPath] ends in a call to the standard library's [path.Clean].  The
    model follows its loop: [rest] is the unread suffix [path[r:]], [out]
    holds the bytes [out[0:w]] of the lazy buffer (so [w] is [length out])
    and [dotdot] is the index below which [..] may not backtrack. *)
Module GoPath.

Definition is_slash (c : ascii) : bool := Ascii.eqb c "/".
Definition is_dot (c : ascii) : bool := Ascii.eqb c ".".

(** [r+k == n || path[r+k] == '/'] for the suffix starting at [r+k]. *)
Definition at_boundary (s : list ascii) : bool :=
  match s with
  | [] => true
  | c :: _ => is_slash c
  end.

(** The bytes copied by [for ; r < n && path[r] != '/'; r++]. *)
Fixpoint element (s : list ascii) : list ascii :=
  match s with
  | [] => []
  | c :: t => if is_slash c then [] else c :: element t
  end.

(** The suffix at which that copy loop stops. *)
Fixpoint after_element (s : list ascii) : list ascii :=
  match s with
  | [] => []
  | c :: t => if is_slash c then s else after_element t
  end.

(** [for out.w > dotdot && out.index(out.w) != '/' { out.w-- }], started at
    [w]; the buffer still holds the bytes above [w] while it is scanned. *)
Fixpoint backtrack (buf : list ascii) (dotdot w : nat) : nat :=
  match w with
  | 0 => 0
  | S w' =>
      if (dotdot <? w) && negb (is_slash (nth w buf "000"%char))
      then backtrack buf dotdot w'
      else w
  end.

(** The main loop.  Every iteration reads at least one byte, so
    [length rest] iterations always suffice (see [clean_loop_fuel]). *)
Fixpoint clean_loop (fuel : nat) (rooted : bool) (rest out : list ascii)
    (dotdot : nat) : list ascii :=
  match fuel with
  | 0 => out
  | S fuel' =>
      match rest with
      | [] => out
      | c :: t =>
          if is_slash c then
            (* empty path element *)
            clean_loop fuel' rooted t out dotdot
          else if is_dot c && at_boundary t then
            (* . element *)
            clean_loop fuel' rooted t out dotdot
          else if is_dot c && is_dot (hd "000"%char t) && at_boundary (tl t) then
            (* .. element: remove to last / *)
            if dotdot <? length out then
              let w := backtrack out dotdot (length out - 1) in
              clean_loop fuel' rooted (tl t) (firstn w out) dotdot
            else if negb rooted then
              let out1 := if 0 <? length out then out ++ ["/"%char] else out in
              let out2 := out1 ++ ["."%char; "."%char] in
              clean_loop fuel' rooted (tl t) out2 (length out2)
            else
              clean_loop fuel' rooted (tl t) out dotdot
          else
            (* real path element: add slash if needed, copy element *)
            let out1 :=
              if (rooted && negb (length out =? 1))
                 || (negb rooted && negb (length out =? 0))
              then out ++ ["/"%char] else out in
            clean_loop fuel' rooted (after_element rest)
                       (out1 ++ element rest) dotdot
      end
  end.

Definition clean_bytes (path : list ascii) : list ascii :=
  match path with
  | [] => ["."%char]
  | c :: t =>
      let rooted := is_slash c in
      let out :=
        if rooted
        then clean_loop (length path) true t ["/"%char] 1
        else clean_loop (length path) false path [] 0 in
      (* Turn empty string into "." *)
      if length out =? 0 then ["."%char] else out
  end.

Definition Clean (path : string) : string :=
  string_of_list_ascii (clean_bytes (list_ascii_of_string path)).

(** *** What [Clean] computes on a rooted path

    The documentation of [path.Clean] describes the result through path
    elements: slashes separate elements, empty and [.] elements vanish and
    [..] removes the element before it.  [collapse] is that description;
    [clean_bytes_rooted] below shows that the loop computes it. *)

Definition seg := list ascii.

(** The elements between the slashes of [s] (never an empty list). *)
Fixpoint segments (s : list ascii) : list seg :=
  match s with
  | [] => [[]]
  | c :: t =>
      if is_slash c then [] :: segments t
      else match segments t with
           | e :: more => (c :: e) :: more
           | [] => [[c]]
           end
  end.

Definition dot_seg : seg := ["."%char].
Definition dotdot_seg : seg := ["."%char; "."%char].

Definition collapse_step (st : list seg) (e : seg) : list seg :=
  if decide (e = []) then st
  else if decide (e = dot_seg) then st
  else if decide (e = dotdot_seg) then removelast st
  else st ++ [e].

Definition collapse_from (st : list seg) (es : list seg) : list seg :=
  fold_left collapse_step es st.

Definition collapse (es : list seg) : list seg := collapse_from [] es.

(** A rooted path made of the elements [st]: ["/"] for none, else
    ["/e1/e2/.../en"]. *)
Definition render (st : list seg) : list ascii :=
  match st with
  | [] => ["/"%char]
  | _ => flat_map (cons "/"%char) st
  end.

Abbreviation no_slash := (Forall (λ c : ascii, is_slash c = false)).

(** An element that [Clean] keeps: non-empty, without slash, not [.] or [..]. *)
Definition kept (e : seg) : Prop :=
  e ≠ [] ∧ e ≠ dot_seg ∧ e ≠ dotdot_seg ∧ no_slash e.

(** The elements after the slash a suffix starts with. *)
Definition tail_segments (t : list ascii) : list seg :=
  match t with
  | [] => []
  | _ :: t' => segments t'
  end.

End GoPath.

(** ** [cleanPath] *)

Definition cleanPath (p : string) : string :=
  if String.eqb p EmptyString then "/"
  else
    let p := if String.prefix "/" p then p else "/" +:+ p in
    GoPath.Clean p.

(** The elements of [p] that survive normalisation: the elements between
    its slashes, with empty and [.] elements dropped and every [..] taking
    the element before it along. *)
Definition path_elements (p : string) : list GoPath.seg :=
  GoPath.collapse (GoPath.segments (list_ascii_of_string p)).

(** ** Header keys: [textproto.CanonicalMIMEHeaderKey]

    [http.Header.Set] stores a value under the canonical form of its key.
    A key made of header-field bytes only gets an upper-case letter at its
    start and after each dash and lower-case letters elsewhere; any other
    key is left as it is. *)
Module textproto.

Definition in_range (lo hi : nat) (c : ascii) : bool :=
  (lo <=? nat_of_ascii c) && (nat_of_ascii c <=? hi).

Definition is_lower : ascii → bool := in_range 97 122.
Definition is_upper : ascii → bool := in_range 65 90.
Definition is_digit : ascii → bool := in_range 48 57.

Definition validHeaderFieldByte (c : ascii) : bool :=
  is_lower c || is_upper c || is_digit c
  || existsb (Ascii.eqb c) (list_ascii_of_string "!#$%&'*+-.^_`|~").

Definition toLower : nat := 32.

Fixpoint canonical (upper : bool) (a : list ascii) : list ascii :=
  match a with
  | [] => []
  | c :: t =>
      let c' :=
        if upper && is_lower c then ascii_of_nat (nat_of_ascii c - toLower)
        else if negb upper && is_upper c
             then ascii_of_nat (nat_of_ascii c + toLower)
             else c in
      c' :: canonical (Ascii.eqb c' "-") t
  end.

Definition CanonicalMIMEHeaderKey (s : string) : string :=
  let a := list_ascii_of_string s in
  if forallb validHeaderFieldByte a
  then string_of_list_ascii (canonical true a)
  else s.

End textproto.

(** ** Data *)

(** [gohttp.Header], a [map[string][]string]. *)
Abbreviation Header := (gmap string (list string)).

Definition Header_Set (key value : string) (h : Header) : Header :=
  <[textproto.CanonicalMIMEHeaderKey key := [value]]> h.

(** Routing headers (clusters.go). *)
Record ClusterTargetHeader := {
  OrgID : string;
  SpaceID : string;
  AccountID : string
}.

Record ClusterSoftlayerHeader := {
  SoftLayerUsername : string;
  SoftLayerAPIKey : string
}.

(** Dynamic types and values of [interface{}] arguments: the routing-header
    tags handed to the primitives, request bodies and decode targets.  A
    pointer is [Some] of the struct it points to, or [None] when nil. *)
Inductive GoType : Type :=
  | TNil
  | TClusterTargetHeader
  | TClusterSoftlayerHeader
  | TString
  | TNamed (name : string)
  | TPtr (t : GoType).

Inductive GoValue : Type :=
  | VNil
  | VTargetHeaderPtr (p : option ClusterTargetHeader)
  | VSoftlayerHeaderPtr (p : option ClusterSoftlayerHeader)
  | VTargetHeader (v : ClusterTargetHeader)
  | VSoftlayerHeader (v : ClusterSoftlayerHeader)
  | VString (s : string)
  | VOther (name : string) (repr : string).

Definition type_of (v : GoValue) : GoType :=
  match v with
  | VNil => TNil
  | VTargetHeaderPtr _ => TPtr TClusterTargetHeader
  | VSoftlayerHeaderPtr _ => TPtr TClusterSoftlayerHeader
  | VTargetHeader _ => TClusterTargetHeader
  | VSoftlayerHeader _ => TClusterSoftlayerHeader
  | VString _ => TString
  | VOther name _ => TNamed name
  end.

(** [rest.Request]: what the request builder of the rest package holds. *)
Record rest_Request := {
  method : string;
  rawUrl : string;
  header : Header;
  body : option GoValue
}.

Definition new_rest_Request (m rawUrl : string) : rest_Request :=
  {| method := m; rawUrl := rawUrl; header := ∅; body := None |}.

Definition GetRequest : string → rest_Request := new_rest_Request "GET".
Definition PutRequest : string → rest_Request := new_rest_Request "PUT".
Definition PatchRequest : string → rest_Request := new_rest_Request "PATCH".
Definition PostRequest : string → rest_Request := new_rest_Request "POST".
Definition DeleteRequest : string → rest_Request := new_rest_Request "DELETE".

Definition Body (data : GoValue) (r : rest_Request) : rest_Request :=
  {| method := method r; rawUrl := rawUrl r; header := header r;
     body := Some data |}.

Definition Set_ (key value : string) (r : rest_Request) : rest_Request :=
  {| method := method r; rawUrl := rawUrl r;
     header := Header_Set key value (header r); body := body r |}.

(** [gohttp.Response] with the fields the client reads.  [Request] and its
    [URL] are pointers: [None] is nil. *)
Record url_URL := { Host : string }.
Record gohttp_Request := { URL : option url_URL }.
Record gohttp_Response := {
  StatusCode : Z;
  Request : option gohttp_Request
}.

(** [new(gohttp.Response)]: every field has its zero value. *)
Definition new_Response : gohttp_Response :=
  {| StatusCode := 0; Request := None |}.

(** The host [resp.Request.URL.Host] names, when both pointers are set. *)
Definition response_host (resp : gohttp_Response) : option string :=
  req ← Request resp; u ← URL req; Some (Host u).

(** Go's [error] values, by the kinds the client tells apart.

    Modelled from the spec: the error kinds of package bmxerror, which is
    not among the sources.  A structured failure carries a code, a
    description and an HTTP status; the refresher's typed failure is the
    invalid-token error; the network-error kind carries the target host. *)
Inductive error : Type :=
  (* a failure of the HTTP exchange itself: connection, DNS, timeout *)
  | TransportError (msg : string)
  (* the network-error kind of package bmxerror *)
  | NetworkError (host : string) (cause : error)
  (* bmxerror.RequestFailure: code, description and HTTP status *)
  | RequestFailure (code description : string) (statusCode : Z)
  (* a pointer to bmxerror.InvalidTokenError *)
  | InvalidTokenError (message : string)
  (* errors.New, fmt.Errorf and any other error *)
  | ErrorString (msg : string).

(** Modelled from the spec: [bmxerror.NewRequestFailure], which is not
    among the sources; it builds the structured failure from its code,
    description and status. *)
Definition NewRequestFailure (code description : string) (statusCode : Z)
  : error := RequestFailure code description statusCode.

(** Modelled from the spec: [bmxerror.WrapNetworkErrors], which is not among
    the sources.  A network-level failure reported by the transport is
    wrapped into the network-error kind carrying the target host; structured
    failures are distinct from transport-level errors and stay as they are. *)
Definition WrapNetworkErrors (host : string) (err : error) : error :=
  match err with
  | TransportError _ => NetworkError host err
  | _ => err
  end.

(** [sendRequest] reads [resp.Request.URL.Host] only when the exchange
    reported an error; the read succeeds when both pointers are set, as they
    are on every response [net/http] hands back for a request it sent. *)
Definition host_known (resp : gohttp_Response) (err : option error) : Prop :=
  err = None ∨ is_Some (response_host resp).

(** Modelled from the spec: [bluemix.Config], which is not among the
    sources; of the configuration, the client core reads the bearer token. *)
Record Config := { IAMAccessToken : string }.

(** //AuthorizationHeader ... *)
Definition AuthorizationHeader : string := "Authorization".

Definition orgIDHeader : string := "X-Auth-Resource-Org".
Definition spaceIDHeader : string := "X-Auth-Resource-Space".
Definition accountIDHeader : string := "X-Auth-Resource-Account".
Definition slUserNameHeader : string := "X-Auth-Softlayer-Username".
Definition slAPIKeyHeader : string := "X-Auth-Softlayer-APIKey".

(** ** Header projection

    The type switch of [addToRequestHeader] has a case for each of the two
    pointer types and no default.  Reading a field through a nil pointer
    panics: the result is [None] then. *)
Definition addToRequestHeader (h : GoValue) (r : rest_Request)
  : option rest_Request :=
  match h with
  | VTargetHeaderPtr p =>
      v ← p;
      Some (Set_ accountIDHeader (AccountID v)
             (Set_ spaceIDHeader (SpaceID v)
               (Set_ orgIDHeader (OrgID v) r)))
  | VSoftlayerHeaderPtr p =>
      v ← p;
      Some (Set_ slAPIKeyHeader (SoftLayerAPIKey v)
             (Set_ slUserNameHeader (SoftLayerUsername v) r))
  | _ => Some r
  end.

(** The types the switch has a case for. *)
Definition recognized (t : GoType) : bool :=
  match t with
  | TPtr TClusterTargetHeader | TPtr TClusterSoftlayerHeader => true
  | _ => false
  end.

(** [for _, t := range targetHeader { addToRequestHeader(t, r) }] *)
Fixpoint addAllToRequestHeader (targetHeader : list GoValue)
    (r : rest_Request) : option rest_Request :=
  match targetHeader with
  | [] => Some r
  | t :: rest => r' ← addToRequestHeader t r; addAllToRequestHeader rest r'
  end.

(** ** The client and its collaborators *)

(** Calls the client makes to its collaborators, in the order made. *)
Inductive Call : Type :=
  | CallBefore (r : rest_Request)
  | CallDo (DefaultHeader : Header) (r : rest_Request)
  | CallRefreshToken
  | CallOnError (statusCode : Z) (rawResponse : string).

(** Number of HTTP exchanges and of token refreshes in a log. *)
Definition is_CallDo (ev : Call) : bool :=
  match ev with CallDo _ _ => true | _ => false end.
Definition is_CallRefreshToken (ev : Call) : bool :=
  match ev with CallRefreshToken => true | _ => false end.
Definition http_calls (log : list Call) : nat :=
  length (List.filter is_CallDo log).
Definition refresh_calls (log : list Call) : nat :=
  length (List.filter is_CallRefreshToken log).

Section Client.

(** State of the collaborators (the remote service, the refresher's cache,
    whatever the hooks close over, the decode target [respV] points to). *)
Variable Env : Type.

(** [http.UserAgent()], the identification sent with every request. *)
Variable UserAgent : string.

(** The text of an error, as [fmt]'s verb [%v] prints it. *)
Variable errorText : error → string.

(** What the collaborators read and write: the configuration [c.config]
    points to, shared with the token refresher, and their own state. *)
Record Store := { config : Config; env : Env }.

Definition Collab (A : Type) : Type := Store → A * Store.

(** An HTTP client, seen through [rest.Client.Do(r, respV, nil)] running
    over it with the given default headers: a response (or nil) and an
    error (or nil). *)
Definition Transport : Type :=
  Header → rest_Request → GoValue →
  Collab (option gohttp_Response * option error).

(** [gohttp.DefaultClient]. *)
Variable DefaultClient : Transport.

(** //TokenRefresher ...  [RefreshToken() (string, error)] *)
Definition TokenRefresher : Type := Collab (string * option error).

(** //URLGetter ... *)
Definition URLGetter : Type := Store → string.

(** //ErrHandler ...  [func(statusCode int, rawResponse []byte) error] *)
Definition ErrHandler : Type := Z → string → Collab (option error).

(** //BeforeHandler ...  The hook takes a pointer to the [rest.Request] and
    returns an [error]; it may change the request it is handed. *)
Definition BeforeHandler : Type :=
  rest_Request → Collab (rest_Request * option error).

(** [None] is a nil field.  The field [config] of the Go struct is the
    pointer to the configuration held in the [Store]. *)
Record clusterClient := {
  IAMTokenRefresher : option TokenRefresher;
  BaseURL : option URLGetter;
  OnError : option ErrHandler;
  Before : option BeforeHandler;
  HTTPClient : option Transport
}.

(** Modelled from the spec: [http.DefaultClusterAuthHeader], which is not
    among the sources; the default headers are the bearer token and the
    standard identification headers. *)
Definition DefaultClusterAuthHeader (c : Config) : Header :=
  Header_Set AuthorizationHeader (IAMAccessToken c)
    (Header_Set "User-Agent" UserAgent ∅).

(** *** Runs: store, log of calls, panics *)

Record World := { store : Store; calls : list Call }.

Inductive outcome (A : Type) : Type :=
  | Returns (a : A) (w : World)
  | Panics (w : World).
Arguments Returns {A} a w.
Arguments Panics {A} w.

Definition M (A : Type) : Type := World → outcome A.

#[local] Instance M_ret : MRet M := λ A a w, Returns a w.
#[local] Instance M_bind : MBind M := λ A B f m w,
  match m w with
  | Returns a w' => f a w'
  | Panics w' => Panics w'
  end.

Definition panic {A} : M A := λ w, Panics w.

(** A call to a collaborator: logged, then run on the store. *)
Definition call {A} (ev : Call) (f : Collab A) : M A := λ w,
  let (a, s) := f (store w) in
  Returns a {| store := s; calls := calls w ++ [ev] |}.

Definition read_store : M Store := λ w, Returns (store w) w.

(** [resp.Request.URL.Host]; a nil pointer on the way panics. *)
Definition Request_URL_Host (resp : gohttp_Response) : M string :=
  match response_host resp with
  | Some host => mret host
  | None => panic
  end.

(** [restClient.Do(r, respV, nil)] for a [rest.Client] with the given
    default headers and HTTP client. *)
Definition restClient_Do (DefaultHeader : Header) (httpClient : Transport)
    (r : rest_Request) (respV : GoValue)
  : M (option gohttp_Response * option error) :=
  call (CallDo DefaultHeader r) (httpClient DefaultHeader r respV).

(** *** [sendRequest]

    The Go function is split at its two early exits: [refresh_and_retry] is
    the body of the 401 branch, [translate_error] the code after it.  The
    line written to [trace.Logger] is left out. *)

(** The end of [sendRequest]: the type assertion on [bmxerror.RequestFailure]
    and the [OnError] hook, then [return resp, err]. *)
Definition translate_error (c : clusterClient)
    (resp : option gohttp_Response) (err : option error)
  : M (option gohttp_Response * option error) :=
  match err, OnError c with
  | Some (RequestFailure _ description statusCode), Some onError =>
      err' ← call (CallOnError statusCode description)
                  (onError statusCode description);
      mret (resp, err')
  | _, _ => mret (resp, err)
  end.

(** The branch [if resp.StatusCode == 401 && c.IAMTokenRefresher != nil]. *)
Definition refresh_and_retry (c : clusterClient) (httpClient : Transport)
    (refresher : TokenRefresher) (r : rest_Request) (respV : GoValue)
    (resp : gohttp_Response)
  : M (option gohttp_Response * option error) :=
  '(_, uaaErr) ← call CallRefreshToken refresher;
  match uaaErr with
  | None =>
      s ← read_store;
      '(resp', err') ←
        restClient_Do (DefaultClusterAuthHeader (config s)) httpClient
                      r respV;
      translate_error c resp' err'
  | Some (InvalidTokenError _ as e) =>
      mret (Some resp,
            Some (NewRequestFailure "InvalidToken" (errorText e) 401))
  | Some e =>
      mret (Some resp,
            Some (ErrorString
                    ("Authentication failed, Unable to refresh auth token: "
                     +:+ errorText e +:+ ". Try again later")))
  end.

Definition sendRequest (c : clusterClient) (r : rest_Request)
    (respV : GoValue) : M (option gohttp_Response * option error) :=
  let httpClient := default DefaultClient (HTTPClient c) in
  s ← read_store;
  let DefaultHeader := DefaultClusterAuthHeader (config s) in
  '(r, beforeErr) ←
    match Before c with
    | Some before => call (CallBefore r) (before r)
    | None => mret (r, None)
    end;
  match beforeErr with
  | Some err => mret (Some new_Response, Some err)
  | None =>
      '(resp, err) ← restClient_Do DefaultHeader httpClient r respV;
      match resp with
      | None => mret (Some new_Response, err)
      | Some resp =>
          err ← match err with
                | Some e =>
                    host ← Request_URL_Host resp;
                    mret (Some (WrapNetworkErrors host e))
                | None => mret None
                end;
          (* if token is invalid, refresh and try again *)
          match (StatusCode resp =? 401)%Z, IAMTokenRefresher c with
          | true, Some refresher =>
              refresh_and_retry c httpClient refresher r respV resp
          | _, _ => translate_error c (Some resp) err
          end
      end
  end.

(** *** The primitives *)

(** [c.url(path)] *)
Definition url (c : clusterClient) (path : string) : M string :=
  match BaseURL c with
  | None => mret path
  | Some baseURL => s ← read_store; mret (baseURL s +:+ cleanPath path)
  end.

(** The loop over [targetHeader] and the call of [sendRequest], shared by
    the five primitives. *)
Definition dispatch (c : clusterClient) (r : rest_Request)
    (respV : GoValue) (targetHeader : list GoValue)
  : M (option gohttp_Response * option error) :=
  match addAllToRequestHeader targetHeader r with
  | Some r' => sendRequest c r' respV
  | None => panic
  end.

Definition get (c : clusterClient) (path : string) (respV : GoValue)
    (targetHeader : list GoValue) :=
  u ← url c path;
  dispatch c (GetRequest u) respV targetHeader.

Definition put (c : clusterClient) (path : string) (data respV : GoValue)
    (targetHeader : list GoValue) :=
  u ← url c path;
  dispatch c (Body data (PutRequest u)) respV targetHeader.

Definition patch (c : clusterClient) (path : string) (data respV : GoValue)
    (targetHeader : list GoValue) :=
  u ← url c path;
  dispatch c (Body data (PatchRequest u)) respV targetHeader.

Definition post (c : clusterClient) (path : string) (data respV : GoValue)
    (targetHeader : list GoValue) :=
  u ← url c path;
  dispatch c (Body data (PostRequest u)) respV targetHeader.

Definition delete (c : clusterClient) (path : string)
    (targetHeader : list GoValue) :=
  u ← url c path;
  dispatch c (DeleteRequest u) VNil targetHeader.

(** *** Reading a run

    What the first step of [sendRequest] does to the store and to the log:
    the [Before] hook when there is one, nothing otherwise. *)
Definition run_before (c : clusterClient) (r : rest_Request)
  : Collab (rest_Request * option error) :=
  match Before c with
  | Some before => before r
  | None => λ s, ((r, None), s)
  end.

Definition before_calls (c : clusterClient) (r : rest_Request) : list Call :=
  match Before c with
  | Some _ => [CallBefore r]
  | None => []
  end.

(** The call [translate_error] logs: the [OnError] hook is run on a
    structured failure, when there is a hook. *)
Definition on_error_calls (c : clusterClient) (err : option error)
  : list Call :=
  match err, OnError c with
  | Some (RequestFailure _ description statusCode), Some _ =>
      [CallOnError statusCode description]
  | _, _ => []
  end.

(** The HTTP client [sendRequest] selects. *)
Definition selected_client (c : clusterClient) : Transport :=
  default DefaultClient (HTTPClient c).

End Client.

Arguments Returns {Env A} a w.
Arguments Panics {Env A} w.
Arguments Build_Store {Env} _ _.
Arguments config {Env} _.
Arguments env {Env} _.
Arguments Build_World {Env} _ _.
Arguments store {Env} _.
Arguments calls {Env} _.
Arguments Build_clusterClient {Env} _ _ _ _ _.
Arguments IAMTokenRefresher {Env} _.
Arguments BaseURL {Env} _.
Arguments OnError {Env} _.
Arguments Before {Env} _.
Arguments HTTPClient {Env} _.
Arguments run_before {Env} c r _.
Arguments before_calls {Env} c r.
Arguments on_error_calls {Env} c err.
Arguments selected_client {Env} DefaultClient c.

(** ** A concrete setting

    A transport that answers from a script, a refresher that stores a fresh
    token in the configuration and one that reports an invalid token, and
    hooks; used to run the client on concrete inputs. *)
Module Scenario.

Definition Env : Type := list (option gohttp_Response * option error).

Definition UserAgent : string := "bluemix-go".

Fixpoint errorText (e : error) : string :=
  match e with
  | TransportError msg => msg
  | NetworkError host cause => host +:+ ": " +:+ errorText cause
  | RequestFailure code description _ => code +:+ ": " +:+ description
  | InvalidTokenError message => "Invalid auth token: " +:+ message
  | ErrorString msg => msg
  end.

(** Answers with the next entry of the script; an exhausted script is a
    connection that fails without a response. *)
Definition scripted : Transport Env := λ _ _ _ s,
  match env s with
  | [] => ((None, Some (TransportError "connection refused")), s)
  | answer :: script => (answer, {| config := config s; env := script |})
  end.

Definition refresher_ok : TokenRefresher Env := λ s,
  (("fresh", None),
   {| config := {| IAMAccessToken := "fresh" |}; env := env s |}).

Definition refresher_invalid : TokenRefresher Env := λ s,
  ((EmptyString, Some (InvalidTokenError "token expired")), s).

Definition before_fails : BeforeHandler Env := λ r s,
  ((r, Some (ErrorString "request rejected")), s).

Definition host : string := "containers.bluemix.net".

Definition answered (status : Z) : gohttp_Response :=
  {| StatusCode := status;
     Request := Some {| URL := Some {| Host := host |} |} |}.

Definition unauthorized : option gohttp_Response * option error :=
  (Some (answered 401),
   Some (RequestFailure "ServerErrorResponse" "Unauthorized" 401)).

Definition ok : option gohttp_Response * option error :=
  (Some (answered 200), None).

Definition timeout : option gohttp_Response * option error :=
  (None, Some (TransportError "net/http: request canceled")).

Definition redirect_failure : option gohttp_Response * option error :=
  (Some (answered 302), Some (TransportError "stopped after 10 redirects")).

Definition client (refresher : option (TokenRefresher Env))
    (before : option (BeforeHandler Env)) : clusterClient Env :=
  {| IAMTokenRefresher := refresher;
     BaseURL := None;
     OnError := None;
     Before := before;
     HTTPClient := Some scripted |}.

Definition world (script : Env) : World Env :=
  {| store := {| config := {| IAMAccessToken := "stale" |}; env := script |};
     calls := [] |}.

Definition request : rest_Request := GetRequest "/v1/clusters".

Definition run (c : clusterClient Env) (script : Env) :=
  sendRequest Env UserAgent errorText scripted c request VNil (world script).

(** A refresher whose failure is not the invalid-token kind. *)
Definition refresher_down : TokenRefresher Env := λ s,
  ((EmptyString, Some (ErrorString "iam: connection refused")), s).

(** An [OnError] hook that rewrites every failure. *)
Definition on_error_rewrites : ErrHandler Env := λ statusCode rawResponse s,
  (Some (ErrorString ("cluster service: " +:+ rawResponse)), s).

Definition not_found : option gohttp_Response * option error :=
  (Some (answered 404),
   Some (RequestFailure "ServerErrorResponse" "no such cluster" 404)).

(** What [rest.Client.Do] hands back when it cannot build the request: a
    fresh response, which has no [Request], and the error. *)
Definition not_sent : option gohttp_Response * option error :=
  (Some new_Response, Some (ErrorString "unsupported protocol scheme")).

Definition client_with_hook : clusterClient Env :=
  {| IAMTokenRefresher := Some refresher_ok;
     BaseURL := None;
     OnError := Some on_error_rewrites;
     Before := None;
     HTTPClient := Some scripted |}.

Definition base : string := "https://containers.bluemix.net".

Definition client_with_base : clusterClient Env :=
  {| IAMTokenRefresher := Some refresher_ok;
     BaseURL := Some (λ _, base);
     OnError := None;
     Before := None;
     HTTPClient := Some scripted |}.

End Scenario.



(** ** Resource methods

    The methods of clusters.go and of the subnets file that return the
    error of their request and nothing else.  The receiver is reduced to its
    field [client]; [fmt.Sprintf] with [%s] verbs is concatenation; a
    [target] pointer is [None] when nil. *)
Section Resources.

Variable Env : Type.
Variable UserAgent : string.
Variable errorText : error → string.
Variable DefaultClient : Transport Env.

#[local] Existing Instance M_ret.
#[local] Existing Instance M_bind.

(** [_, err := ...; return err] *)
Definition only_err (m : M Env (option gohttp_Response * option error))
  : M Env (option error) :=
  '(_, err) ← m; mret err.

(** //Delete ... *)
Definition clusters_Delete (c : clusterClient Env) (name : string)
    (target : option ClusterTargetHeader) : M Env (option error) :=
  let rawURL := "/v1/clusters/" +:+ name in
  only_err (delete Env UserAgent errorText DefaultClient c rawURL
              [VTargetHeaderPtr target]).

Definition clusters_UnsetCredentials (c : clusterClient Env)
    (target : option ClusterTargetHeader) : M Env (option error) :=
  let rawURL := "/v1/credentials" in
  only_err (delete Env UserAgent errorText DefaultClient c rawURL
              [VTargetHeaderPtr target]).

Definition clusters_SetCredentials (c : clusterClient Env)
    (slUsername slAPIKey : string) (target : option ClusterTargetHeader)
  : M Env (option error) :=
  only_err (post Env UserAgent errorText DefaultClient c "/v1/credentials"
              VNil VNil
              [VTargetHeaderPtr target;
               VSoftlayerHeaderPtr
                 (Some {| SoftLayerAPIKey := slAPIKey;
                          SoftLayerUsername := slUsername |})]).

(** //UnBindService ... *)
Definition clusters_UnBindService (c : clusterClient Env)
    (clusterNameOrID namespaceID serviceInstanceGUID : string)
    (target : option ClusterTargetHeader) : M Env (option error) :=
  let rawURL := "/v1/clusters/" +:+ clusterNameOrID +:+ "/services/"
                +:+ namespaceID +:+ "/" +:+ serviceInstanceGUID in
  only_err (delete Env UserAgent errorText DefaultClient c rawURL
              [VTargetHeaderPtr target]).

(** //AddSubnetToCluster ... *)
Definition subnet_AddSubnet (c : clusterClient Env) (name subnetID : string)
    (target : option ClusterTargetHeader) : M Env (option error) :=
  let rawURL := "/v1/clusters/" +:+ name +:+ "/subnets/" +:+ subnetID in
  only_err (put Env UserAgent errorText DefaultClient c rawURL VNil VNil
              [VTargetHeaderPtr target]).

End Resources.

Example Clean_tests :
  map GoPath.Clean
    ["abc"; "abc/def"; "."; ".."; "../.."; "../../abc"; "/abc"; "/"; "abc/";
     "./"; "../"; "/abc/"; "abc//def//ghi"; "//abc"; "///abc"; "//abc//";
     "abc/./def"; "/./abc/def"; "abc/."; "abc/def/ghi/../jkl";
     "abc/def/../ghi/../jkl"; "abc/def/.."; "abc/def/../.."; "/abc/def/../..";
     "abc/def/../../.."; "/abc/def/../../..";
     "abc/def/../../../ghi/jkl/../../../mno"; "abc/./../def";
     "abc//./../def"; "abc/../../././../def"; EmptyString;
     "/..a/.../.b/../c."]
  = ["abc"; "abc/def"; "."; ".."; "../.."; "../../abc"; "/abc"; "/"; "abc";
     "."; ".."; "/abc"; "abc/def/ghi"; "/abc"; "/abc"; "/abc";
     "abc/def"; "/abc/def"; "abc"; "abc/def/jkl";
     "abc/jkl"; "abc"; "."; "/";
     ".."; "/";
     "../../mno"; "def";
     "def"; "../../def"; "."; "/..a/.../c."].
Proof. vm_compute. reflexivity. Qed.

(** * Properties *)

(** ** [path.Clean] on rooted paths *)
Section CleanFacts.
Import GoPath.

Lemma element_no_slash s : no_slash (element s).
Proof.
  induction s as [|c t IH]; simpl; [constructor|].
  destruct (is_slash c) eqn:Hc; constructor; assumption.
Qed.

Lemma after_element_boundary s : at_boundary (after_element s) = true.
Proof.
  induction s as [|c t IH]; simpl; [reflexivity|].
  destruct (is_slash c) eqn:Hc; simpl; [exact Hc | exact IH].
Qed.

Lemma after_element_length s : length (after_element s) ≤ length s.
Proof.
  induction s as [|c t IH]; simpl; [lia|].
  destruct (is_slash c); simpl; lia.
Qed.

Lemma boundary_element t : at_boundary t = true → element t = [].
Proof. destruct t as [|c t]; simpl; [reflexivity|]. now intros ->. Qed.

Lemma boundary_after_element t : at_boundary t = true → after_element t = t.
Proof. destruct t as [|c t]; simpl; [reflexivity|]. now intros ->. Qed.

Lemma segments_split s :
  segments s = element s :: tail_segments (after_element s).
Proof.
  induction s as [|c t IH]; simpl; [reflexivity|].
  destruct (is_slash c); simpl; [reflexivity|].
  now rewrite IH.
Qed.

Lemma segments_no_slash s : Forall no_slash (segments s).
Proof.
  remember (length s) as n eqn:Hn.
  revert s Hn. induction n as [n IH] using lt_wf_ind. intros s ->.
  rewrite segments_split. constructor; [apply element_no_slash|].
  pose proof (after_element_length s) as Hlen.
  destruct (after_element s) as [|c t] eqn:Ha; simpl; [constructor|].
  destruct s as [|c0 s0]; [discriminate|].
  apply (IH (length t)); [|reflexivity].
  simpl in *. lia.
Qed.

(** [length rest] iterations are enough: more fuel changes nothing. *)
Lemma clean_loop_fuel : ∀ f1 f2 rooted rest out dotdot,
  length rest ≤ f1 → length rest ≤ f2 →
  clean_loop f1 rooted rest out dotdot = clean_loop f2 rooted rest out dotdot.
Proof.
  induction f1 as [|f1 IH]; intros f2 rooted rest out dotdot H1 H2.
  { destruct rest; [now destruct f2 | simpl in H1; lia]. }
  destruct f2 as [|f2].
  { destruct rest; [reflexivity | simpl in H2; lia]. }
  destruct rest as [|c t]; [reflexivity|].
  simpl in H1, H2. cbn [clean_loop after_element element].
  assert (Htl : length (tl t) ≤ length t) by (destruct t; simpl; lia).
  pose proof (after_element_length t) as Hafter.
  destruct (is_slash c); [apply IH; lia|].
  destruct (is_dot c && at_boundary t); [apply IH; lia|].
  destruct (is_dot c && is_dot (hd "000"%char t) && at_boundary (tl t)).
  - destruct (dotdot <? length out); [apply IH; lia|].
    destruct (negb rooted); apply IH; lia.
  - apply IH; lia.
Qed.

Lemma collapse_boundary st t :
  at_boundary t = true →
  collapse_from st (segments t) = collapse_from st (tail_segments t).
Proof.
  intros Hb. rewrite segments_split, boundary_element, boundary_after_element
    by assumption.
  reflexivity.
Qed.

Lemma collapse_step_kept st e :
  Forall kept st → no_slash e → Forall kept (collapse_step st e).
Proof.
  intros Hst He. unfold collapse_step.
  repeat case_decide; try assumption.
  - destruct st as [|x st'] using rev_ind; [constructor|].
    rewrite removelast_last. apply Forall_app in Hst. tauto.
  - apply Forall_app. split; [assumption|].
    constructor; [|constructor]. unfold kept. tauto.
Qed.

Lemma collapse_from_kept es : ∀ st,
  Forall kept st → Forall no_slash es → Forall kept (collapse_from st es).
Proof.
  induction es as [|e es IH]; intros st Hst Hes; simpl; [assumption|].
  inversion Hes; subst. apply IH; [|assumption].
  now apply collapse_step_kept.
Qed.

(** The buffer for a non-empty stack is the buffer of all elements but the
    last, a slash and the last element. *)
Lemma render_snoc st e :
  render (st ++ [e]) = flat_map (cons "/"%char) st ++ "/"%char :: e.
Proof.
  unfold render. destruct (st ++ [e]) eqn:Heq.
  - now destruct st.
  - rewrite <- Heq, flat_map_app. simpl. now rewrite app_nil_r.
Qed.

Lemma render_snoc_length st e : kept e → 1 < length (render (st ++ [e])).
Proof.
  intros [Hne _]. rewrite render_snoc, length_app.
  destruct e; [done | simpl; lia].
Qed.

Lemma render_length_1 st :
  Forall kept st → (length (render st) =? 1) = bool_decide (st = []).
Proof.
  intros Hst. destruct st as [|e st]; [reflexivity|].
  inversion Hst as [|? ? [Hne _] _]; subst.
  destruct e as [|c e]; [done|].
  rewrite bool_decide_eq_false_2 by done. reflexivity.
Qed.

Lemma flat_map_length_kept st :
  Forall kept st → st ≠ [] → 2 ≤ length (flat_map (cons "/"%char) st).
Proof.
  intros Hst Hne. destruct st as [|e st]; [done|].
  inversion Hst as [|? ? [He _] _]; subst.
  destruct e; [done|]. simpl. lia.
Qed.

Lemma backtrack_stops pre e dd : no_slash e → ∀ k,
  k ≤ length e → dd ≤ length pre + k →
  backtrack (pre ++ "/"%char :: e) dd (length pre + k)
  = Nat.max dd (length pre).
Proof.
  intros He. induction k as [|k IH]; intros Hk Hdd.
  - rewrite Nat.add_0_r in *. destruct (length pre) as [|n] eqn:Hn.
    + simpl. lia.
    + simpl backtrack. rewrite <- Hn.
      replace (nth (length pre) (pre ++ "/"%char :: e) "000"%char)
        with "/"%char.
      * simpl. rewrite andb_false_r. lia.
      * rewrite nth_middle. reflexivity.
  - replace (length pre + S k) with (S (length pre + k)) by lia.
    simpl backtrack.
    destruct (dd <? S (length pre + k)) eqn:Hlt.
    + apply Nat.ltb_lt in Hlt.
      replace (nth (S (length pre + k)) (pre ++ "/"%char :: e) "000"%char)
        with (nth k e "000"%char).
      * assert (Hc : is_slash (nth k e "000"%char) = false).
        { rewrite List.Forall_forall in He. apply He, nth_In. lia. }
        rewrite Hc. simpl. apply IH; lia.
      * rewrite app_nth2 by lia.
        replace (S (length pre + k) - length pre) with (S k) by lia.
        reflexivity.
    + apply Nat.ltb_ge in Hlt. simpl. lia.
Qed.

(** Backtracking over the buffer of a non-empty stack drops its last
    element. *)
Lemma render_backtrack st e :
  Forall kept st → kept e →
  let out := render (st ++ [e]) in
  firstn (backtrack out 1 (length out - 1)) out = render st.
Proof.
  intros Hst (Hne & _ & _ & Hns). simpl.
  rewrite render_snoc.
  set (pre := flat_map (cons "/"%char) st).
  replace (length (pre ++ "/"%char :: e) - 1) with (length pre + length e)
    by (rewrite length_app; simpl; lia).
  assert (Hpos : 0 < length e) by (destruct e; [done | simpl; lia]).
  rewrite backtrack_stops by (assumption || lia).
  destruct st as [|x st'].
  - reflexivity.
  - pose proof (flat_map_length_kept (x :: st') Hst ltac:(done)) as Hlen.
    fold pre in Hlen.
    rewrite Nat.max_r by lia.
    rewrite firstn_app, firstn_all, Nat.sub_diag. simpl.
    now rewrite app_nil_r.
Qed.

Lemma collapse_from_cons st e es :
  collapse_from st (e :: es) = collapse_from (collapse_step st e) es.
Proof. reflexivity. Qed.

Lemma collapse_step_dotdot st :
  collapse_step st ["."%char; "."%char] = removelast st.
Proof. reflexivity. Qed.

Lemma collapse_step_push st e : kept e → collapse_step st e = st ++ [e].
Proof.
  intros (H1 & H2 & H3 & _). unfold collapse_step.
  repeat case_decide; done.
Qed.

Lemma element_nil_boundary t : element t = [] → at_boundary t = true.
Proof.
  destruct t as [|c t]; simpl; [reflexivity|].
  destruct (is_slash c); [reflexivity | discriminate].
Qed.

Lemma is_dot_eq c : is_dot c = true → c = "."%char.
Proof. apply Ascii.eqb_eq. Qed.

(** The bytes the default case copies form an element that is kept. *)
Lemma default_element_kept c t :
  is_slash c = false →
  is_dot c && at_boundary t = false →
  is_dot c && is_dot (hd "000"%char t) && at_boundary (tl t) = false →
  kept (c :: element t).
Proof.
  intros Hc Hd Hdd. unfold kept, dot_seg, dotdot_seg.
  split; [done|]. split; [|split].
  - intros [= -> Ht]. apply element_nil_boundary in Ht.
    rewrite Ht in Hd. discriminate.
  - intros [= -> Ht]. destruct t as [|c2 t2]; [discriminate|].
    simpl in Ht. destruct (is_slash c2); [discriminate|].
    injection Ht as -> Ht2. apply element_nil_boundary in Ht2.
    simpl in Hdd. rewrite Ht2 in Hdd. discriminate.
  - constructor; [assumption | apply element_no_slash].
Qed.

Lemma render_push st e :
  Forall kept st →
  (if negb (length (render st) =? 1) then render st ++ ["/"%char]
   else render st) ++ e
  = render (st ++ [e]).
Proof.
  intros Hst. rewrite render_length_1 by assumption.
  destruct st as [|x st'].
  { rewrite bool_decide_eq_true_2 by done. simpl. now rewrite app_nil_r. }
  rewrite bool_decide_eq_false_2 by done. simpl negb. cbv iota.
  rewrite render_snoc, <- app_assoc. reflexivity.
Qed.

(** The loop of [Clean], started on a rooted buffer, computes [collapse]. *)
Lemma clean_loop_rooted : ∀ fuel rest st,
  length rest ≤ fuel → Forall kept st →
  clean_loop fuel true rest (render st) 1
  = render (collapse_from st (segments rest)).
Proof.
  induction fuel as [|fuel IH]; intros rest st Hlen Hst.
  { destruct rest; [reflexivity | simpl in Hlen; lia]. }
  destruct rest as [|c t]; [reflexivity|].
  simpl in Hlen. assert (Ht : length t ≤ fuel) by lia.
  cbn [clean_loop]. rewrite segments_split. cbn [element after_element].
  destruct (is_slash c) eqn:Hc.
  { rewrite IH by assumption. reflexivity. }
  destruct (is_dot c && at_boundary t) eqn:Hd.
  { apply andb_true_iff in Hd as [Hdot Hb]. apply is_dot_eq in Hdot as ->.
    rewrite IH, collapse_boundary by assumption.
    rewrite boundary_element, boundary_after_element by assumption.
    reflexivity. }
  destruct (is_dot c && is_dot (hd "000"%char t) && at_boundary (tl t))
    eqn:Hdd.
  { apply andb_true_iff in Hdd as [Hdd Hb].
    apply andb_true_iff in Hdd as [Hdot Hdot2].
    apply is_dot_eq in Hdot as ->.
    destruct t as [|c2 t2]; [discriminate|]. simpl in Hdot2, Hb, Ht |- *.
    apply is_dot_eq in Hdot2 as ->.
    change (is_slash ".") with false. cbv iota.
    rewrite boundary_element, boundary_after_element by assumption.
    rewrite ?collapse_from_cons, collapse_step_dotdot.
    destruct st as [|e st'] using rev_ind.
    - change (1 <? length (render [])) with false. cbv iota.
      rewrite IH, collapse_boundary by (assumption || lia).
      reflexivity.
    - apply Forall_app in Hst as [Hst' He]. inversion He; subst.
      assert (Hgt : (1 <? length (render (st' ++ [e]))) = true)
        by (apply Nat.ltb_lt; now apply render_snoc_length).
      rewrite Hgt, (render_backtrack st' e), removelast_last by assumption.
      rewrite IH, collapse_boundary by (assumption || lia).
      reflexivity. }
  pose proof (default_element_kept c t Hc Hd Hdd) as Hk.
  simpl andb. simpl orb. rewrite orb_false_r.
  rewrite render_push by assumption.
  rewrite IH.
  - rewrite collapse_boundary by apply after_element_boundary.
    unfold collapse_from at 2. simpl fold_left.
    rewrite collapse_step_push by assumption. reflexivity.
  - pose proof (after_element_length t). lia.
  - apply Forall_app; split; [assumption | now constructor].
Qed.

Lemma render_nonempty st : (length (render st) =? 0) = false.
Proof. destruct st as [|e st]; reflexivity. Qed.

Lemma clean_bytes_rooted t :
  clean_bytes ("/"%char :: t) = render (collapse (segments t)).
Proof.
  unfold clean_bytes. change (is_slash "/") with true. cbv iota zeta.
  change ["/"%char] with (render []).
  rewrite clean_loop_rooted by (simpl; lia || constructor).
  rewrite render_nonempty. reflexivity.
Qed.

Lemma collapse_kept s : Forall kept (collapse (segments s)).
Proof. apply collapse_from_kept; [constructor | apply segments_no_slash]. Qed.

Lemma segments_app e r :
  no_slash e → at_boundary r = true →
  segments (e ++ r) = e :: tail_segments r.
Proof.
  intros He Hr. induction He as [|c e Hc He IH]; simpl.
  - rewrite segments_split, boundary_element, boundary_after_element
      by assumption.
    reflexivity.
  - rewrite Hc, IH. reflexivity.
Qed.

(** Reading back a rendered stack gives its elements. *)
Lemma segments_join es : ∀ e,
  no_slash e → Forall kept es →
  segments (e ++ flat_map (cons "/"%char) es) = e :: es.
Proof.
  induction es as [|x es IH]; intros e He Hes; simpl.
  - rewrite app_nil_r. rewrite <- (app_nil_r e) at 1.
    now rewrite segments_app.
  - inversion Hes as [|? ? (_ & _ & _ & Hx) Hes']; subst.
    rewrite segments_app by (assumption || reflexivity).
    simpl. now rewrite IH.
Qed.

Lemma collapse_from_all_kept es : ∀ st,
  Forall kept es → collapse_from st es = st ++ es.
Proof.
  induction es as [|e es IH]; intros st Hes; simpl.
  - now rewrite app_nil_r.
  - inversion Hes; subst. rewrite collapse_step_push, IH by assumption.
    now rewrite <- app_assoc.
Qed.

(** [Clean] leaves a rendered stack of kept elements as it is. *)
Lemma clean_bytes_render st :
  Forall kept st → clean_bytes (render st) = render st.
Proof.
  intros Hst. destruct st as [|e es]; [reflexivity|].
  change (render (e :: es))
    with ("/"%char :: e ++ flat_map (cons "/"%char) es).
  rewrite clean_bytes_rooted.
  inversion Hst as [|? ? He Hes]; subst.
  rewrite segments_join by (assumption || apply He).
  unfold collapse. rewrite collapse_from_all_kept by assumption.
  reflexivity.
Qed.

End CleanFacts.

(** ** [cleanPath] *)
Section CleanPathFacts.
Import GoPath.

Lemma cleanPath_String c s :
  cleanPath (String c s)
  = Clean (if is_slash c then String c s else String "/" (String c s)).
Proof.
  unfold cleanPath, is_slash.
  change (String.eqb (String c s) EmptyString) with false. cbv iota.
  change (String.prefix "/" (String c s))
    with (if ascii_dec "/" c then String.prefix EmptyString s else false).
  destruct (ascii_dec "/" c) as [<-|Hne]; [now destruct s|].
  destruct (Ascii.eqb c "/") eqn:Heq; [|reflexivity].
  apply Ascii.eqb_eq in Heq. congruence.
Qed.

Lemma cleanPath_elements p :
  cleanPath p = string_of_list_ascii (render (path_elements p)).
Proof.
  destruct p as [|c s]; [reflexivity|].
  rewrite cleanPath_String. unfold path_elements, Clean.
  destruct (is_slash c) eqn:Hc.
  - apply Ascii.eqb_eq in Hc as ->. simpl list_ascii_of_string.
    rewrite clean_bytes_rooted. reflexivity.
  - change (list_ascii_of_string (String "/" (String c s)))
      with ("/"%char :: list_ascii_of_string (String c s)).
    rewrite clean_bytes_rooted. reflexivity.
Qed.

Lemma cleanPath_rendered st :
  Forall kept st →
  cleanPath (string_of_list_ascii (render st))
  = string_of_list_ascii (render st).
Proof.
  intros Hst.
  assert (Hr : ∃ t, render st = "/"%char :: t)
    by (destruct st; simpl; eauto).
  destruct Hr as [t Hr]. rewrite Hr at 1. simpl string_of_list_ascii.
  rewrite cleanPath_String. change (is_slash "/") with true. cbv iota.
  unfold Clean. simpl list_ascii_of_string.
  rewrite list_ascii_of_string_of_list_ascii, <- Hr.
  now rewrite clean_bytes_render.
Qed.

End CleanPathFacts.

(** ** [sendRequest] *)
Section SendRequestFacts.

Variable Env : Type.
Variable UserAgent : string.
Variable errorText : error → string.
Variable DefaultClient : Transport Env.

Local Abbreviation sendRequest' :=
  (sendRequest Env UserAgent errorText DefaultClient).
Local Abbreviation AuthHeader := (DefaultClusterAuthHeader UserAgent).
Local Abbreviation httpClient_of := (selected_client DefaultClient).

Ltac run_step :=
  unfold sendRequest, refresh_and_retry, translate_error, restClient_Do,
    Request_URL_Host, call, read_store, panic, mbind, M_bind, mret, M_ret;
  cbn [store calls].

(** C5: when a registered before-send hook returns an error, [sendRequest]
    returns the zero-value response [new(gohttp.Response)] together with
    that error, and the only call it has made is the one to the hook: no
    HTTP exchange takes place. *)
Theorem sendRequest_before_error
    (c : clusterClient Env) (r : rest_Request) (respV : GoValue)
    (w : World Env) (before : BeforeHandler Env) (r' : rest_Request)
    (err : error) (s' : Store Env)
    (Hhook : Before c = Some before)
    (Hfail : before r (store w) = ((r', Some err), s')) :
  sendRequest' c r respV w
  = Returns (Some new_Response, Some err)
            {| store := s'; calls := calls w ++ [CallBefore r] |}
  ∧ http_calls (calls w ++ [CallBefore r]) = http_calls (calls w).
Proof.
  split.
  - run_step. rewrite Hhook. cbn [store calls]. rewrite Hfail. reflexivity.
  - unfold http_calls. rewrite List.filter_app, length_app. simpl. lia.
Qed.

(** Up to the first exchange: the hook passes, the request is sent once
    with the default headers of the configuration found at entry. *)
Lemma sendRequest_first_attempt
    (c : clusterClient Env) (r r1 : rest_Request) (respV : GoValue)
    (w : World Env) (s1 s2 : Store Env)
    (resp : option gohttp_Response) (err : option error) :
  run_before c r (store w) = ((r1, None), s1) →
  httpClient_of c (AuthHeader (config (store w))) r1 respV s1
    = ((resp, err), s2) →
  let w1 := {| store := s2;
               calls := calls w ++ before_calls c r
                        ++ [CallDo (AuthHeader (config (store w))) r1] |} in
  sendRequest' c r respV w =
  match resp with
  | None => Returns (Some new_Response, err) w1
  | Some rp =>
      match err, response_host rp with
      | Some _, None => Panics w1
      | _, _ =>
          let err1 := WrapNetworkErrors (default EmptyString (response_host rp))
                        <$> err in
          match (StatusCode rp =? 401)%Z, IAMTokenRefresher c with
          | true, Some refresher =>
              refresh_and_retry Env UserAgent errorText c (httpClient_of c)
                refresher r1 respV rp w1
          | _, _ => translate_error Env c (Some rp) err1 w1
          end
      end
  end.
Proof.
  intros Hb Hdo w1. subst w1.
  unfold run_before, before_calls, selected_client in *.
  unfold sendRequest. unfold mbind at 1 2 3, M_bind, read_store, mret, M_ret.
  destruct (Before c) as [before|].
  - unfold call at 1. rewrite Hb. unfold restClient_Do, call at 1.
    cbn [store calls]. rewrite Hdo. rewrite <- app_assoc.
    destruct resp as [rp|]; [|reflexivity].
    unfold Request_URL_Host, mbind, M_bind, mret, M_ret, panic.
    destruct err as [e|], (response_host rp) as [h|],
      (StatusCode rp =? 401)%Z, (IAMTokenRefresher c); reflexivity.
  - injection Hb as <- <-. unfold restClient_Do, call at 1.
    rewrite Hdo. cbn [app].
    destruct resp as [rp|]; [|reflexivity].
    unfold Request_URL_Host, mbind, M_bind, mret, M_ret, panic.
    destruct err as [e|], (response_host rp) as [h|],
      (StatusCode rp =? 401)%Z, (IAMTokenRefresher c); reflexivity.
Qed.

(** With status 401 and a refresher configured, the rest of the run is
    the refresh branch. *)
Lemma sendRequest_refresh_branch
    (c : clusterClient Env) (r r1 : rest_Request) (respV : GoValue)
    (w : World Env) (s1 s2 : Store Env)
    (resp : gohttp_Response) (err : option error)
    (refresher : TokenRefresher Env) :
  run_before c r (store w) = ((r1, None), s1) →
  httpClient_of c (AuthHeader (config (store w))) r1 respV s1
    = ((Some resp, err), s2) →
  StatusCode resp = 401%Z →
  host_known resp err →
  IAMTokenRefresher c = Some refresher →
  sendRequest' c r respV w
  = refresh_and_retry Env UserAgent errorText c (httpClient_of c)
      refresher r1 respV resp
      {| store := s2;
         calls := calls w ++ before_calls c r
                  ++ [CallDo (AuthHeader (config (store w))) r1] |}.
Proof.
  intros Hbefore Hfirst H401 Hhost Hconfigured.
  rewrite (sendRequest_first_attempt c r r1 respV w s1 s2 _ _ Hbefore Hfirst).
  rewrite H401, Hconfigured. change (401 =? 401)%Z with true.
  destruct err as [e|]; [|reflexivity].
  destruct Hhost as [[=] | [h ->]]. reflexivity.
Qed.

(** The end of [sendRequest] always returns, with the response it was
    given; it calls nothing but, at most, the [OnError] hook. *)
Lemma translate_error_returns
    (c : clusterClient Env) (resp : option gohttp_Response)
    (err : option error) (w : World Env) :
  ∃ err' s',
    translate_error Env c resp err w
    = Returns (resp, err')
              {| store := s'; calls := calls w ++ on_error_calls c err |}
    ∧ (err = None → err' = None ∧ s' = store w).
Proof.
  unfold translate_error, on_error_calls.
  destruct err as [[]|], (OnError c) as [onError|];
    try (exists None, (store w); destruct w; cbn; rewrite app_nil_r;
         split; [reflexivity | done]);
    try (eexists (Some _), (store w); destruct w; cbn; rewrite app_nil_r;
         split; [reflexivity | done]).
  unfold mbind, M_bind, call, mret, M_ret.
  destruct (onError statusCode description (store w)) as [err' s'] eqn:Hon.
  exists err', s'. split; [reflexivity | done].
Qed.

Lemma http_calls_app l1 l2 : http_calls (l1 ++ l2) = http_calls l1 + http_calls l2.
Proof. unfold http_calls. now rewrite List.filter_app, length_app. Qed.

Lemma refresh_calls_app l1 l2 :
  refresh_calls (l1 ++ l2) = refresh_calls l1 + refresh_calls l2.
Proof. unfold refresh_calls. now rewrite List.filter_app, length_app. Qed.

Lemma before_calls_count (c : clusterClient Env) r :
  http_calls (before_calls c r) = 0 ∧ refresh_calls (before_calls c r) = 0.
Proof. unfold before_calls. now destruct (Before c). Qed.

Lemma on_error_calls_count (c : clusterClient Env) err :
  http_calls (on_error_calls c err) = 0
  ∧ refresh_calls (on_error_calls c err) = 0.
Proof.
  unfold on_error_calls. now destruct err as [[]|], (OnError c).
Qed.

(** X19: [sendRequest] returns a nil response on one path only: after a
    successful refresh, when the second exchange yields none.  A call that
    returns nil has made two HTTP exchanges and one refresh; every other
    return carries a response. *)
Lemma sendRequest_nil_response_after_retry
    (c : clusterClient Env) (r : rest_Request) (respV : GoValue)
    (w w' : World Env) (err : option error) :
  sendRequest' c r respV w = Returns (None, err) w' →
  http_calls (calls w') = http_calls (calls w) + 2
  ∧ refresh_calls (calls w') = refresh_calls (calls w) + 1.
Proof.
  intros Hrun.
  destruct (run_before c r (store w)) as [[r1 [e|]] s1] eqn:Hb.
  { unfold run_before in Hb. revert Hrun. run_step.
    destruct (Before c) as [before|]; [|discriminate].
    cbn [store calls]. rewrite Hb. discriminate. }
  destruct (httpClient_of c (AuthHeader (config (store w))) r1 respV s1)
    as [[resp e1] s2] eqn:Hdo.
  rewrite (sendRequest_first_attempt c r r1 respV w s1 s2 _ _ Hb Hdo) in Hrun.
  destruct resp as [resp|]; [|discriminate].
  assert (Hplain : ∀ e0 w0,
    translate_error Env c (Some resp) e0 w0 ≠ Returns (None, err) w').
  { intros e0 w0 Heq.
    destruct (translate_error_returns c (Some resp) e0 w0)
      as (? & ? & Hret & _).
    rewrite Hret in Heq. discriminate. }
  assert (Hretry : ∀ refresher w1,
    http_calls (calls w1) = http_calls (calls w) + 1 →
    refresh_calls (calls w1) = refresh_calls (calls w) →
    refresh_and_retry Env UserAgent errorText c (httpClient_of c) refresher
      r1 respV resp w1 = Returns (None, err) w' →
    http_calls (calls w') = http_calls (calls w) + 2
    ∧ refresh_calls (calls w') = refresh_calls (calls w) + 1).
  { intros refresher w1 Hh Hr. unfold refresh_and_retry.
    unfold mbind at 1, M_bind, call at 1.
    destruct (refresher (store w1)) as [[token [ue|]] s3].
    { destruct ue; discriminate. }
    unfold mbind at 1 2, M_bind, read_store, restClient_Do, call at 1.
    cbn [store calls].
    destruct (httpClient_of c (AuthHeader (config s3)) r1 respV s3)
      as [[resp2 err2] s4].
    match goal with
    | |- context [translate_error _ ?c0 ?rp ?e2 ?w2] =>
        destruct (translate_error_returns c0 rp e2 w2)
          as (err' & s' & Hret & _)
    end.
    rewrite Hret. intros [= -> -> <-]. cbn [calls].
    pose proof (on_error_calls_count c err2) as [Ho1 Ho2].
    rewrite !http_calls_app, !refresh_calls_app, Ho1, Ho2, Hh, Hr.
    cbn. lia. }
  assert (Hw1 :
    http_calls (calls w ++ before_calls c r
                ++ [CallDo (AuthHeader (config (store w))) r1])
    = http_calls (calls w) + 1
    ∧ refresh_calls (calls w ++ before_calls c r
                     ++ [CallDo (AuthHeader (config (store w))) r1])
      = refresh_calls (calls w)).
  { pose proof (before_calls_count c r) as [Hb1 Hb2].
    rewrite !http_calls_app, !refresh_calls_app, Hb1, Hb2. cbn. lia. }
  destruct Hw1 as [Hh Hr].
  destruct e1 as [e1|], (response_host resp) as [h|];
    try discriminate;
    cbv zeta in Hrun;
    destruct (StatusCode resp =? 401)%Z, (IAMTokenRefresher c) as [rf|];
    try (now apply Hplain in Hrun);
    refine (Hretry rf _ _ _ Hrun); assumption.
Qed.

(** C1: when the first response has status 401, a token refresher is
    configured and its [RefreshToken] succeeds, [sendRequest] rebuilds the
    default headers from the configuration as the refresher left it (their
    [Authorization] entry is the token found there), sends the same request
    once more and returns the response of that second exchange, whatever
    its status.  The log gains exactly two HTTP exchanges and exactly one
    [RefreshToken]; the [Before] hook is not run again.  When the second
    exchange reports no error (401 then 200), neither does [sendRequest]. *)
Theorem sendRequest_refresh_retries_once
    (c : clusterClient Env) (r r1 : rest_Request) (respV : GoValue)
    (w : World Env) (s1 s2 s3 s4 : Store Env)
    (resp : gohttp_Response) (err : option error)
    (refresher : TokenRefresher Env) (token : string)
    (resp2 : option gohttp_Response) (err2 : option error)
    (Hbefore : run_before c r (store w) = ((r1, None), s1))
    (Hfirst : httpClient_of c (AuthHeader (config (store w))) r1 respV s1
              = ((Some resp, err), s2))
    (H401 : StatusCode resp = 401%Z)
    (Hhost : host_known resp err)
    (Hconfigured : IAMTokenRefresher c = Some refresher)
    (Hrefreshed : refresher s2 = ((token, None), s3))
    (Hsecond : httpClient_of c (AuthHeader (config s3)) r1 respV s3
               = ((resp2, err2), s4)) :
  ∃ (err_final : option error) (w' : World Env),
    sendRequest' c r respV w = Returns (resp2, err_final) w'
    ∧ calls w' = calls w ++ before_calls c r
                 ++ [CallDo (AuthHeader (config (store w))) r1;
                     CallRefreshToken;
                     CallDo (AuthHeader (config s3)) r1]
                 ++ on_error_calls c err2
    ∧ http_calls (calls w') = http_calls (calls w) + 2
    ∧ refresh_calls (calls w') = refresh_calls (calls w) + 1
    ∧ AuthHeader (config s3) !! AuthorizationHeader
      = Some [IAMAccessToken (config s3)]
    ∧ (err2 = None → err_final = None ∧ store w' = s4).
Proof.
  rewrite (sendRequest_refresh_branch c r r1 respV w s1 s2 resp err refresher)
    by assumption.
  unfold refresh_and_retry.
  unfold mbind at 1, M_bind, call at 1. cbn [store calls].
  rewrite Hrefreshed.
  unfold mbind at 1 2, M_bind, read_store, restClient_Do, call at 1.
  cbn [store calls]. unfold selected_client in *. rewrite Hsecond.
  match goal with
  | |- context [translate_error _ ?c0 ?rp ?e2 ?w1] =>
      destruct (translate_error_returns c0 rp e2 w1)
        as (err' & s' & Hrun & Hnone)
  end.
  rewrite Hrun. eexists _, _. split; [reflexivity|]. cbn [store calls].
  pose proof (before_calls_count c r) as [Hb1 Hb2].
  pose proof (on_error_calls_count c err2) as [Ho1 Ho2].
  split; [now rewrite <- !app_assoc|].
  rewrite !http_calls_app, !refresh_calls_app, Hb1, Hb2, Ho1, Ho2.
  split; [cbn; lia|]. split; [cbn; lia|]. split.
  - unfold DefaultClusterAuthHeader, Header_Set. apply lookup_insert_eq.
  - intros Hnil. destruct (Hnone Hnil) as [-> ->]. done.
Qed.

(** C2: when the response has status 401 and the configured refresher
    reports an invalid token, [sendRequest] returns at once with that
    response and a request failure of code [InvalidToken] and status 401;
    the log shows the one HTTP exchange and the refresh, and nothing after
    them. *)
Theorem sendRequest_invalid_token
    (c : clusterClient Env) (r r1 : rest_Request) (respV : GoValue)
    (w : World Env) (s1 s2 s3 : Store Env)
    (resp : gohttp_Response) (err : option error)
    (refresher : TokenRefresher Env) (token message : string)
    (Hbefore : run_before c r (store w) = ((r1, None), s1))
    (Hfirst : httpClient_of c (AuthHeader (config (store w))) r1 respV s1
              = ((Some resp, err), s2))
    (H401 : StatusCode resp = 401%Z)
    (Hhost : host_known resp err)
    (Hconfigured : IAMTokenRefresher c = Some refresher)
    (Hinvalid : refresher s2
                = ((token, Some (InvalidTokenError message)), s3)) :
  let log := calls w ++ before_calls c r
             ++ [CallDo (AuthHeader (config (store w))) r1;
                 CallRefreshToken] in
  sendRequest' c r respV w
  = Returns (Some resp,
             Some (RequestFailure "InvalidToken"
                     (errorText (InvalidTokenError message)) 401))
            {| store := s3; calls := log |}
  ∧ http_calls log = http_calls (calls w) + 1.
Proof.
  intros log. subst log. split.
  - rewrite (sendRequest_refresh_branch c r r1 respV w s1 s2 resp err
               refresher) by assumption.
    unfold refresh_and_retry, mbind, M_bind, call. cbn [store calls].
    rewrite Hinvalid. unfold mret, M_ret, NewRequestFailure.
    now rewrite <- !app_assoc.
  - pose proof (before_calls_count c r) as [Hb1 _].
    rewrite !http_calls_app, Hb1. cbn. lia.
Qed.

(** C4, as the code has it: a network-level failure that the transport
    reports without a response object on the first attempt is returned as
    it is, next to the synthesized response; one reported together with a
    response object is returned wrapped into the network-error kind
    carrying the host of that response's request, unless the token-refresh
    branch takes over (status 401 with a refresher configured). *)
Theorem sendRequest_network_error
    (c : clusterClient Env) (r r1 : rest_Request) (respV : GoValue)
    (w : World Env) (s1 s2 : Store Env)
    (resp_opt : option gohttp_Response) (msg : string)
    (Hbefore : run_before c r (store w) = ((r1, None), s1))
    (Hfirst : httpClient_of c (AuthHeader (config (store w))) r1 respV s1
              = ((resp_opt, Some (TransportError msg)), s2)) :
  let w1 := {| store := s2;
               calls := calls w ++ before_calls c r
                        ++ [CallDo (AuthHeader (config (store w))) r1] |} in
  (resp_opt = None →
   sendRequest' c r respV w
   = Returns (Some new_Response, Some (TransportError msg)) w1)
  ∧ (∀ resp host,
       resp_opt = Some resp →
       response_host resp = Some host →
       StatusCode resp ≠ 401%Z ∨ IAMTokenRefresher c = None →
       sendRequest' c r respV w
       = Returns (Some resp, Some (NetworkError host (TransportError msg)))
                 w1).
Proof.
  intros w1.
  rewrite (sendRequest_first_attempt c r r1 respV w s1 s2 _ _ Hbefore Hfirst).
  fold w1. split.
  - intros ->. reflexivity.
  - intros resp host -> Hhost Hplain. rewrite Hhost. cbn zeta.
    assert (Hdone :
      translate_error Env c (Some resp)
        (WrapNetworkErrors (default EmptyString (Some host))
           <$> Some (TransportError msg)) w1
      = Returns (Some resp, Some (NetworkError host (TransportError msg)))
                w1).
    { unfold translate_error. cbn. now destruct (OnError c). }
    destruct Hplain as [Hne | Hnil].
    + apply Z.eqb_neq in Hne. rewrite Hne. exact Hdone.
    + rewrite Hnil. now destruct (StatusCode resp =? 401)%Z.
Qed.

End SendRequestFacts.

(** ** Path normalisation *)

(** C6: [cleanPath] yields ["/"] for the empty path; otherwise it hands the
    path to [Clean], with a slash put in front when the path lacks one, so
    that a path and the same path behind a slash normalise alike; the
    result is a slash followed by the surviving elements joined by single
    slashes, where empty elements (redundant separators) and [.] elements
    are dropped, each [..] removes the element before it, and no surviving
    element is empty, [.] or [..]; so ["/v1/../v1/clusters"] becomes
    ["/v1/clusters"]. *)
Theorem cleanPath_normalizes :
  cleanPath EmptyString = "/"
  ∧ (∀ c s, cleanPath (String c s)
            = GoPath.Clean (if GoPath.is_slash c then String c s
                            else String "/" (String c s)))
  ∧ (∀ p, cleanPath p = cleanPath ("/" +:+ p))
  ∧ (∀ p, cleanPath p
          = string_of_list_ascii (GoPath.render (path_elements p))
          ∧ Forall GoPath.kept (path_elements p))
  ∧ cleanPath "/v1/../v1/clusters" = "/v1/clusters".
Proof.
  split; [reflexivity|]. split; [apply cleanPath_String|].
  split; [|split; [|reflexivity]].
  - intros p. rewrite !cleanPath_elements. reflexivity.
  - intros p. split; [apply cleanPath_elements | apply collapse_kept].
Qed.

(** C10: path normalisation is idempotent. *)
Theorem cleanPath_idempotent (p : string) :
  cleanPath (cleanPath p) = cleanPath p.
Proof.
  rewrite (cleanPath_elements p). apply cleanPath_rendered, collapse_kept.
Qed.

(** ** Header projection *)

(** C7: projecting the tenant header with organisation [o1], space [s1] and
    account [a1] onto a request sets the three headers
    [X-Auth-Resource-Org], [X-Auth-Resource-Space] and
    [X-Auth-Resource-Account] to those values and leaves the rest of the
    request, other headers included, as it was; on a fresh request the
    header set is exactly these three entries. *)
Theorem addToRequestHeader_tenant (r : rest_Request) :
  let tenant := {| OrgID := "o1"; SpaceID := "s1"; AccountID := "a1" |} in
  ∃ r',
    addToRequestHeader (VTargetHeaderPtr (Some tenant)) r = Some r'
    ∧ header r' = <["X-Auth-Resource-Account" := ["a1"]]>
                    (<["X-Auth-Resource-Space" := ["s1"]]>
                      (<["X-Auth-Resource-Org" := ["o1"]]> (header r)))
    ∧ dom (header r')
      = dom (header r) ∪ {["X-Auth-Resource-Org"; "X-Auth-Resource-Space";
                           "X-Auth-Resource-Account"]}
    ∧ (∀ key, header r' !! key =
              if decide (key ∈ ["X-Auth-Resource-Org";
                                "X-Auth-Resource-Space";
                                "X-Auth-Resource-Account"])
              then (λ v, [v]) <$> ({["X-Auth-Resource-Org" := "o1";
                                     "X-Auth-Resource-Space" := "s1";
                                     "X-Auth-Resource-Account" := "a1"]}
                                   : gmap string string) !! key
              else header r !! key)
    ∧ method r' = method r ∧ rawUrl r' = rawUrl r ∧ body r' = body r
    ∧ (∀ m u,
         header <$> addToRequestHeader (VTargetHeaderPtr (Some tenant))
                      (new_rest_Request m u)
         = Some {["X-Auth-Resource-Org" := ["o1"];
                  "X-Auth-Resource-Space" := ["s1"];
                  "X-Auth-Resource-Account" := ["a1"]]}
         ∧ size <$> (header <$> addToRequestHeader
                                  (VTargetHeaderPtr (Some tenant))
                                  (new_rest_Request m u))
           = Some 3).
Proof.
  intros tenant. eexists. split; [reflexivity|].
  cbn [header method rawUrl body Set_].
  unfold Header_Set, tenant. cbn [OrgID SpaceID AccountID].
  change (textproto.CanonicalMIMEHeaderKey accountIDHeader)
    with "X-Auth-Resource-Account".
  change (textproto.CanonicalMIMEHeaderKey spaceIDHeader)
    with "X-Auth-Resource-Space".
  change (textproto.CanonicalMIMEHeaderKey orgIDHeader)
    with "X-Auth-Resource-Org".
  split; [reflexivity|]. split; [|split; [|split; [|split; [|split]]]];
    try reflexivity.
  - rewrite !dom_insert_L. apply set_eq. intros key.
    rewrite !elem_of_union, !elem_of_singleton. tauto.
  - intros key. case_decide as Hkey.
    + set_unfold in Hkey. destruct Hkey as [->|[->|[->|[]]]];
        by simplify_map_eq.
    + set_unfold in Hkey.
      rewrite !lookup_insert_ne by (intros Heq; apply Hkey; auto).
      reflexivity.
  - intros m u. split; vm_compute; reflexivity.
Qed.

(** C8: a header value of a type the projection has no case for (neither a
    pointer to a tenant header nor a pointer to an infrastructure-credential
    header) leaves the request as it is, and the projection returns (no
    panic). *)
Theorem addToRequestHeader_unrecognized (h : GoValue) (r : rest_Request)
    (Hunknown : recognized (type_of h) = false) :
  addToRequestHeader h r = Some r.
Proof. destruct h; (discriminate || reflexivity). Qed.

(** C9: a [ClusterTargetHeader] or [ClusterSoftlayerHeader] passed by value
    has a type the switch does not list; it adds nothing to the request,
    and each primitive given one behaves as if given no routing header. *)
Theorem by_value_header_adds_nothing
    (Env : Type) (UserAgent : string) (errorText : error → string)
    (DefaultClient : Transport Env) (c : clusterClient Env)
    (path : string) (data respV : GoValue)
    (tenant : ClusterTargetHeader) (softlayer : ClusterSoftlayerHeader) :
  let get := get Env UserAgent errorText DefaultClient c path respV in
  let put := put Env UserAgent errorText DefaultClient c path data respV in
  let patch :=
    patch Env UserAgent errorText DefaultClient c path data respV in
  let post := post Env UserAgent errorText DefaultClient c path data respV in
  let delete := delete Env UserAgent errorText DefaultClient c path in
  recognized (type_of (VTargetHeader tenant)) = false
  ∧ recognized (type_of (VSoftlayerHeader softlayer)) = false
  ∧ (∀ r, addToRequestHeader (VTargetHeader tenant) r = Some r
          ∧ addToRequestHeader (VSoftlayerHeader softlayer) r = Some r)
  ∧ (∀ r, dispatch Env UserAgent errorText DefaultClient c r respV
            [VTargetHeader tenant; VSoftlayerHeader softlayer]
          = sendRequest Env UserAgent errorText DefaultClient c r respV)
  ∧ (get [VTargetHeader tenant] = get []
     ∧ put [VTargetHeader tenant] = put []
     ∧ patch [VTargetHeader tenant] = patch []
     ∧ post [VTargetHeader tenant] = post []
     ∧ delete [VTargetHeader tenant] = delete [])
  ∧ (get [VSoftlayerHeader softlayer] = get []
     ∧ put [VSoftlayerHeader softlayer] = put []
     ∧ patch [VSoftlayerHeader softlayer] = patch []
     ∧ post [VSoftlayerHeader softlayer] = post []
     ∧ delete [VSoftlayerHeader softlayer] = delete []).
Proof.
  cbv zeta. split; [reflexivity|]. split; [reflexivity|].
  split; [intros r; split; reflexivity|].
  split; [intros r; reflexivity|].
  split; repeat split; reflexivity.
Qed.

(** ** The client on concrete runs *)

(** C3, where the code falls short of it: the first exchange is answered
    with 401, the refresh succeeds and the second exchange times out
    without a response object; [sendRequest] then returns a nil response. *)
Theorem sendRequest_retry_returns_nil :
  ∃ w',
    Scenario.run (Scenario.client (Some Scenario.refresher_ok) None)
                 [Scenario.unauthorized; Scenario.timeout]
    = Returns (None, Some (TransportError "net/http: request canceled")) w'
    ∧ http_calls (calls w') = 2 ∧ refresh_calls (calls w') = 1.
Proof. eexists. split; [vm_compute; reflexivity|]. split; reflexivity. Qed.

(** C4 fails where the transport reports a network-level failure without
    a response object: the error comes back as the transport gave it, not
    as the network-error kind. *)
Lemma sendRequest_raw_transport_error :
  let failure := TransportError "net/http: request canceled" in
  ∃ s' log,
    Scenario.scripted (DefaultClusterAuthHeader Scenario.UserAgent
                         (config (store (Scenario.world [Scenario.timeout]))))
      Scenario.request VNil (store (Scenario.world [Scenario.timeout]))
    = ((None, Some failure), s')
    ∧ Scenario.run (Scenario.client None None) [Scenario.timeout]
      = Returns (Some new_Response, Some failure)
                {| store := s'; calls := log |}
    ∧ ∀ host cause, failure ≠ NetworkError host cause.
Proof.
  eexists _, _. split; [|split].
  - vm_compute. reflexivity.
  - vm_compute. reflexivity.
  - discriminate.
Qed.


(** ** The theorems at work on concrete runs *)

(** A second 401 is returned as it is: two exchanges, one refresh. *)
Example sendRequest_second_401_not_retried :
  ∃ w',
    Scenario.run (Scenario.client (Some Scenario.refresher_ok) None)
                 [Scenario.unauthorized; Scenario.unauthorized; Scenario.ok]
    = Returns Scenario.unauthorized w'
    ∧ http_calls (calls w') = 2 ∧ refresh_calls (calls w') = 1
    ∧ env (store w') = [Scenario.ok].
Proof.
  eexists. split; [vm_compute; reflexivity|]. repeat split; reflexivity.
Qed.

(** 401, then a successful refresh, then 200. *)
Lemma sendRequest_refresh_retries_once_witness :
  ∃ err_final w',
    Scenario.run (Scenario.client (Some Scenario.refresher_ok) None)
                 [Scenario.unauthorized; Scenario.ok]
    = Returns (Some (Scenario.answered 200), err_final) w'
    ∧ http_calls (calls w') = 2
    ∧ refresh_calls (calls w') = 1
    ∧ err_final = None.
Proof.
  edestruct (sendRequest_refresh_retries_once
               Scenario.Env Scenario.UserAgent Scenario.errorText
               Scenario.scripted
               (Scenario.client (Some Scenario.refresher_ok) None)
               Scenario.request Scenario.request VNil
               (Scenario.world [Scenario.unauthorized; Scenario.ok]))
    as (e & w' & Hrun & _ & Hhttp & Hrefresh & _ & Hnone);
    [reflexivity | reflexivity | reflexivity
     | right; eexists; reflexivity | reflexivity ..|].
  exists e, w'. split; [exact Hrun|]. split; [exact Hhttp|].
  split; [exact Hrefresh|]. exact (proj1 (Hnone eq_refl)).
Defined.

(** 401, then a refresher that reports an invalid token. *)
Lemma sendRequest_invalid_token_witness :
  ∃ w',
    Scenario.run (Scenario.client (Some Scenario.refresher_invalid) None)
                 [Scenario.unauthorized; Scenario.ok]
    = Returns (Some (Scenario.answered 401),
               Some (RequestFailure "InvalidToken"
                       "Invalid auth token: token expired" 401)) w'
    ∧ http_calls (calls w') = 1
    ∧ env (store w') = [Scenario.ok].
Proof.
  edestruct (sendRequest_invalid_token
               Scenario.Env Scenario.UserAgent Scenario.errorText
               Scenario.scripted
               (Scenario.client (Some Scenario.refresher_invalid) None)
               Scenario.request Scenario.request VNil
               (Scenario.world [Scenario.unauthorized; Scenario.ok]))
    as (Hrun & Hhttp);
    [reflexivity | reflexivity | reflexivity
     | right; eexists; reflexivity | reflexivity ..|].
  eexists. split; [exact Hrun|]. split; [exact Hhttp | reflexivity].
Defined.

(** A time-out without response, and a redirect failure with one. *)
Lemma sendRequest_network_error_witness :
  (∃ w', Scenario.run (Scenario.client None None) [Scenario.timeout]
         = Returns (Some new_Response,
                    Some (TransportError "net/http: request canceled")) w')
  ∧ (∃ w', Scenario.run (Scenario.client None None)
                        [Scenario.redirect_failure]
           = Returns (Some (Scenario.answered 302),
                      Some (NetworkError Scenario.host
                              (TransportError "stopped after 10 redirects")))
                     w').
Proof.
  split; eexists.
  - eapply (proj1 (sendRequest_network_error
                     Scenario.Env Scenario.UserAgent Scenario.errorText
                     Scenario.scripted (Scenario.client None None)
                     Scenario.request Scenario.request VNil
                     (Scenario.world [Scenario.timeout])
                     _ _ None _ eq_refl eq_refl)).
    reflexivity.
  - eapply (proj2 (sendRequest_network_error
                     Scenario.Env Scenario.UserAgent Scenario.errorText
                     Scenario.scripted (Scenario.client None None)
                     Scenario.request Scenario.request VNil
                     (Scenario.world [Scenario.redirect_failure])
                     _ _ (Some (Scenario.answered 302)) _ eq_refl eq_refl)).
    + reflexivity.
    + reflexivity.
    + right. reflexivity.
Defined.

(** A before-send hook that rejects the request. *)
Lemma sendRequest_before_error_witness :
  Scenario.run (Scenario.client None (Some Scenario.before_fails))
               [Scenario.ok]
  = Returns (Some new_Response, Some (ErrorString "request rejected"))
            {| store := store (Scenario.world [Scenario.ok]);
               calls := [CallBefore Scenario.request] |}.
Proof.
  exact (proj1 (sendRequest_before_error
                  Scenario.Env Scenario.UserAgent Scenario.errorText
                  Scenario.scripted
                  (Scenario.client None (Some Scenario.before_fails))
                  Scenario.request VNil (Scenario.world [Scenario.ok])
                  Scenario.before_fails Scenario.request
                  (ErrorString "request rejected")
                  (store (Scenario.world [Scenario.ok]))
                  eq_refl eq_refl)).
Defined.

(** A string is not a routing header. *)
Lemma addToRequestHeader_unrecognized_witness :
  recognized (type_of (VString "o1")) = false
  ∧ addToRequestHeader (VString "o1") Scenario.request
    = Some Scenario.request.
Proof.
  split; [reflexivity|].
  apply (addToRequestHeader_unrecognized (VString "o1") Scenario.request).
  reflexivity.
Defined.

(** ** More on [sendRequest]: every path through it *)
Section SendRequestPaths.

Variable Env : Type.
Variable UserAgent : string.
Variable errorText : error → string.
Variable DefaultClient : Transport Env.

Local Abbreviation sendRequest' :=
  (sendRequest Env UserAgent errorText DefaultClient).
Local Abbreviation AuthHeader := (DefaultClusterAuthHeader UserAgent).
Local Abbreviation httpClient_of := (selected_client DefaultClient).

(** The refresh branch always returns; it refreshes once and sends at most
    once more. *)
Lemma refresh_and_retry_returns
    (c : clusterClient Env) (httpClient : Transport Env)
    (refresher : TokenRefresher Env) (r : rest_Request) (respV : GoValue)
    (resp : gohttp_Response) (w1 : World Env) :
  ∃ res w' new,
    refresh_and_retry Env UserAgent errorText c httpClient refresher r respV
      resp w1 = Returns res w'
    ∧ calls w' = calls w1 ++ CallRefreshToken :: new
    ∧ http_calls new ≤ 1 ∧ refresh_calls new = 0.
Proof.
  unfold refresh_and_retry. unfold mbind at 1, M_bind, call at 1.
  destruct (refresher (store w1)) as [[token [ue|]] s3].
  { destruct ue; eexists _, _, []; cbn;
      (split; [reflexivity|]); split; try reflexivity; split; cbn; lia. }
  unfold mbind at 1 2, M_bind, read_store, restClient_Do, call at 1.
  cbn [store calls].
  destruct (httpClient (AuthHeader (config s3)) r respV s3)
    as [[resp2 err2] s4].
  match goal with
  | |- context [translate_error _ ?c0 ?rp ?e2 ?w2] =>
      destruct (translate_error_returns Env c0 rp e2 w2)
        as (err' & s' & Hret & _)
  end.
  rewrite Hret. eexists _, _, _. split; [reflexivity|]. cbn [calls].
  split; [now rewrite <- !app_assoc|].
  pose proof (on_error_calls_count Env c err2) as [Ho1 Ho2].
  rewrite http_calls_app, refresh_calls_app, Ho1, Ho2. cbn. lia.
Qed.


(** Neither [translate_error] nor the refresh branch panics, so a panic
    can only come from reading the host of the first response. *)
Lemma sendRequest_panics_at_host
    (c : clusterClient Env) (r r1 : rest_Request) (respV : GoValue)
    (w w' : World Env) (s1 s2 : Store Env)
    (resp : option gohttp_Response) (err : option error) :
  run_before c r (store w) = ((r1, None), s1) →
  httpClient_of c (AuthHeader (config (store w))) r1 respV s1
    = ((resp, err), s2) →
  sendRequest' c r respV w = Panics w' →
  ∃ rp e, resp = Some rp ∧ err = Some e ∧ response_host rp = None.
Proof.
  intros Hb Hdo.
  rewrite (sendRequest_first_attempt Env UserAgent errorText DefaultClient
             c r r1 respV w s1 s2 _ _ Hb Hdo).
  destruct resp as [rp|]; [|discriminate].
  assert (Hplain : ∀ e0 w0,
    translate_error Env c (Some rp) e0 w0 ≠ Panics w').
  { intros e0 w0 Heq.
    destruct (translate_error_returns Env c (Some rp) e0 w0)
      as (? & ? & Hret & _).
    rewrite Hret in Heq. discriminate. }
  assert (Hretry : ∀ rf w0,
    refresh_and_retry Env UserAgent errorText c (httpClient_of c) rf r1
      respV rp w0 ≠ Panics w').
  { intros rf w0 Heq.
    destruct (refresh_and_retry_returns c (httpClient_of c) rf r1 respV rp
                w0) as (? & ? & ? & Hret & _).
    rewrite Hret in Heq. discriminate. }
  destruct err as [e|], (response_host rp) as [h|] eqn:Hhost; cbv zeta;
    try (intros _; now eexists _, _);
    destruct (StatusCode rp =? 401)%Z, (IAMTokenRefresher c) as [rf|];
    intros Hrun;
    first [now apply Hplain in Hrun | now apply Hretry in Hrun].
Qed.

(** X2: [sendRequest] panics in exactly one situation: the [Before] hook,
    if any, passes, and the first exchange comes back with an error and a
    response on which [resp.Request.URL.Host] cannot be read (a nil
    [Request] or a nil [URL]).  The panic happens right after that
    exchange: no refresh, no second exchange, no [OnError] call. *)
Theorem sendRequest_panics_iff
    (c : clusterClient Env) (r : rest_Request) (respV : GoValue)
    (w w' : World Env) :
  sendRequest' c r respV w = Panics w'
  ↔ ∃ r1 s1 rp e s2,
      run_before c r (store w) = ((r1, None), s1)
      ∧ httpClient_of c (AuthHeader (config (store w))) r1 respV s1
        = ((Some rp, Some e), s2)
      ∧ response_host rp = None
      ∧ w' = {| store := s2;
                calls := calls w ++ before_calls c r
                         ++ [CallDo (AuthHeader (config (store w))) r1] |}.
Proof.
  split.
  - intros Hrun.
    destruct (run_before c r (store w)) as [[r1 [e|]] s1] eqn:Hb.
    { exfalso. revert Hrun. unfold run_before in Hb.
      unfold sendRequest, mbind, M_bind, read_store, call, mret, M_ret.
      destruct (Before c) as [before|]; [|discriminate].
      cbn [store calls]. rewrite Hb. discriminate. }
    destruct (httpClient_of c (AuthHeader (config (store w))) r1 respV s1)
      as [[resp e1] s2] eqn:Hdo.
    destruct (sendRequest_panics_at_host c r r1 respV w w' s1 s2 resp e1
                Hb Hdo Hrun) as (rp & e & -> & -> & Hhost).
    exists r1, s1, rp, e, s2. repeat split; try assumption.
    rewrite (sendRequest_first_attempt Env UserAgent errorText DefaultClient
               c r r1 respV w s1 s2 _ _ Hb Hdo) in Hrun.
    rewrite Hhost in Hrun. now injection Hrun as <-.
  - intros (r1 & s1 & rp & e & s2 & Hb & Hdo & Hhost & ->).
    rewrite (sendRequest_first_attempt Env UserAgent errorText DefaultClient
               c r r1 respV w s1 s2 _ _ Hb Hdo).
    now rewrite Hhost.
Qed.

(** X3: when the refresher fails with anything but the invalid-token
    error, [sendRequest] gives up at once: it returns the 401 response and
    an error that quotes the refresher's, after one exchange and one
    refresh; the [OnError] hook is not consulted. *)
Theorem sendRequest_refresh_failure
    (c : clusterClient Env) (r r1 : rest_Request) (respV : GoValue)
    (w : World Env) (s1 s2 s3 : Store Env)
    (resp : gohttp_Response) (err : option error)
    (refresher : TokenRefresher Env) (token : string) (uaaErr : error)
    (Hbefore : run_before c r (store w) = ((r1, None), s1))
    (Hfirst : httpClient_of c (AuthHeader (config (store w))) r1 respV s1
              = ((Some resp, err), s2))
    (H401 : StatusCode resp = 401%Z)
    (Hhost : host_known resp err)
    (Hconfigured : IAMTokenRefresher c = Some refresher)
    (Hfailed : refresher s2 = ((token, Some uaaErr), s3))
    (Hother : ∀ message, uaaErr ≠ InvalidTokenError message) :
  let log := calls w ++ before_calls c r
             ++ [CallDo (AuthHeader (config (store w))) r1;
                 CallRefreshToken] in
  sendRequest' c r respV w
  = Returns (Some resp,
             Some (ErrorString
                     ("Authentication failed, Unable to refresh auth token: "
                      +:+ errorText uaaErr +:+ ". Try again later")))
            {| store := s3; calls := log |}
  ∧ http_calls log = http_calls (calls w) + 1.
Proof.
  intros log. subst log. split.
  - rewrite (sendRequest_refresh_branch Env UserAgent errorText DefaultClient
               c r r1 respV w s1 s2 resp err refresher) by assumption.
    unfold refresh_and_retry, mbind, M_bind, call. cbn [store calls].
    rewrite Hfailed. unfold mret, M_ret. rewrite <- !app_assoc.
    destruct uaaErr; try reflexivity. now destruct (Hother message).
  - pose proof (before_calls_count Env c r) as [Hb1 _].
    rewrite !http_calls_app, Hb1. cbn. lia.
Qed.

(** X4: an exchange that reports no error and is not a 401 with a
    refresher configured is handed back as it is: that response, no error,
    one exchange, no refresh and no hook call after it. *)
Theorem sendRequest_success
    (c : clusterClient Env) (r r1 : rest_Request) (respV : GoValue)
    (w : World Env) (s1 s2 : Store Env) (resp : gohttp_Response)
    (Hbefore : run_before c r (store w) = ((r1, None), s1))
    (Hfirst : httpClient_of c (AuthHeader (config (store w))) r1 respV s1
              = ((Some resp, None), s2))
    (Hplain : StatusCode resp ≠ 401%Z ∨ IAMTokenRefresher c = None) :
  sendRequest' c r respV w
  = Returns (Some resp, None)
            {| store := s2;
               calls := calls w ++ before_calls c r
                        ++ [CallDo (AuthHeader (config (store w))) r1] |}.
Proof.
  rewrite (sendRequest_first_attempt Env UserAgent errorText DefaultClient
             c r r1 respV w s1 s2 _ _ Hbefore Hfirst).
  cbv zeta. cbn [fmap option_fmap option_map].
  assert (Hdone : ∀ w1, translate_error Env c (Some resp) None w1
                        = Returns (Some resp, None) w1) by reflexivity.
  destruct Hplain as [Hne | Hnil].
  - apply Z.eqb_neq in Hne. rewrite Hne. apply Hdone.
  - rewrite Hnil. destruct (StatusCode resp =? 401)%Z; apply Hdone.
Qed.

(** X5: a structured failure of an exchange that is not retried goes
    through the [OnError] hook when one is registered: the hook is called
    once with the failure's status and description, and what it returns,
    nil included, is the error of [sendRequest]; without a hook the failure
    is returned as it is. *)
Theorem sendRequest_on_error
    (c : clusterClient Env) (r r1 : rest_Request) (respV : GoValue)
    (w : World Env) (s1 s2 : Store Env) (resp : gohttp_Response)
    (host code description : string) (statusCode : Z)
    (Hbefore : run_before c r (store w) = ((r1, None), s1))
    (Hfirst : httpClient_of c (AuthHeader (config (store w))) r1 respV s1
              = ((Some resp,
                  Some (RequestFailure code description statusCode)), s2))
    (Hhost : response_host resp = Some host)
    (Hplain : StatusCode resp ≠ 401%Z ∨ IAMTokenRefresher c = None) :
  let log := calls w ++ before_calls c r
             ++ [CallDo (AuthHeader (config (store w))) r1] in
  sendRequest' c r respV w
  = match OnError c with
    | Some onError =>
        let (err', s3) := onError statusCode description s2 in
        Returns (Some resp, err')
                {| store := s3;
                   calls := log ++ [CallOnError statusCode description] |}
    | None =>
        Returns (Some resp,
                 Some (RequestFailure code description statusCode))
                {| store := s2; calls := log |}
    end.
Proof.
  intros log. subst log.
  rewrite (sendRequest_first_attempt Env UserAgent errorText DefaultClient
             c r r1 respV w s1 s2 _ _ Hbefore Hfirst).
  rewrite Hhost. cbv zeta.
  cbn [fmap option_fmap option_map WrapNetworkErrors].
  set (w1 := {| store := s2; calls := _ |}).
  assert (Hdone :
    translate_error Env c (Some resp)
      (Some (RequestFailure code description statusCode)) w1
    = match OnError c with
      | Some onError =>
          let (err', s3) := onError statusCode description s2 in
          Returns (Some resp, err')
                  {| store := s3;
                     calls := calls w1
                              ++ [CallOnError statusCode description] |}
      | None =>
          Returns (Some resp,
                   Some (RequestFailure code description statusCode)) w1
      end).
  { unfold translate_error. destruct (OnError c) as [onError|];
      [|reflexivity].
    unfold mbind, M_bind, call, mret, M_ret. cbn [store w1].
    now destruct (onError statusCode description s2). }
  destruct Hplain as [Hne | Hnil].
  - apply Z.eqb_neq in Hne. rewrite Hne. exact Hdone.
  - rewrite Hnil. destruct (StatusCode resp =? 401)%Z; exact Hdone.
Qed.

End SendRequestPaths.

(** ** More on [cleanPath]: how it treats joined paths *)
Section CleanPathJoin.
Import GoPath.

Lemma list_ascii_of_string_app a b :
  list_ascii_of_string (a +:+ b)
  = list_ascii_of_string a ++ list_ascii_of_string b.
Proof. induction a as [|c a IH]; simpl; [reflexivity | now rewrite IH]. Qed.

(** Splitting at slashes distributes over a join with a slash. *)
Lemma segments_slash_app s t :
  segments (s ++ "/"%char :: t) = segments s ++ segments t.
Proof.
  induction s as [|c s IH]; [reflexivity|].
  simpl. rewrite IH. destruct (is_slash c); [reflexivity|].
  rewrite (segments_split s). reflexivity.
Qed.

Lemma collapse_from_app st a b :
  collapse_from st (a ++ b) = collapse_from (collapse_from st a) b.
Proof. apply fold_left_app. Qed.

Lemma collapse_segments_render st :
  Forall kept st → collapse (segments (render st)) = st.
Proof.
  intros Hst. destruct st as [|e es]; [reflexivity|].
  change (render (e :: es))
    with ([] ++ "/"%char :: e ++ flat_map (cons "/"%char) es).
  inversion Hst as [|? ? He Hes]; subst.
  rewrite segments_slash_app, segments_join by (assumption || apply He).
  unfold collapse. rewrite collapse_from_app.
  change (collapse_from [] (segments [])) with (@nil seg).
  now rewrite collapse_from_all_kept.
Qed.

Lemma path_elements_cleanPath p :
  path_elements (cleanPath p) = path_elements p.
Proof.
  rewrite (cleanPath_elements p). unfold path_elements at 1.
  rewrite list_ascii_of_string_of_list_ascii.
  apply collapse_segments_render, collapse_kept.
Qed.

Lemma cleanPath_by_elements p q :
  path_elements p = path_elements q → cleanPath p = cleanPath q.
Proof. intros H. now rewrite !cleanPath_elements, H. Qed.

Lemma path_elements_join p q :
  path_elements (p +:+ "/" +:+ q)
  = collapse_from (path_elements p) (segments (list_ascii_of_string q)).
Proof.
  unfold path_elements. rewrite list_ascii_of_string_app.
  change (list_ascii_of_string ("/" +:+ q))
    with ("/"%char :: list_ascii_of_string q).
  rewrite segments_slash_app. apply collapse_from_app.
Qed.

(** X6: normalisation can be done piecewise: a path joined to a suffix by a
    slash normalises like its normal form joined to that suffix. *)
Theorem cleanPath_join (p q : string) :
  cleanPath (p +:+ "/" +:+ q) = cleanPath (cleanPath p +:+ "/" +:+ q).
Proof.
  apply cleanPath_by_elements.
  now rewrite !path_elements_join, path_elements_cleanPath.
Qed.

(** X7: a trailing slash and a trailing [.] element change nothing, and a
    doubled slash anywhere counts as one. *)
Theorem cleanPath_trailing (p q : string) :
  cleanPath (p +:+ "/") = cleanPath p
  ∧ cleanPath (p +:+ "/.") = cleanPath p
  ∧ cleanPath (p +:+ "//" +:+ q) = cleanPath (p +:+ "/" +:+ q).
Proof.
  repeat split; apply cleanPath_by_elements.
  - change "/" with ("/" +:+ EmptyString). apply path_elements_join.
  - change "/." with ("/" +:+ "."). apply path_elements_join.
  - change ("//" +:+ q) with ("/" +:+ "/" +:+ q).
    rewrite !path_elements_join. reflexivity.
Qed.

(** X8: an element followed by [..] cancels out: for an element [x] that
    is not empty, [.] or [..] and holds no slash, [p/x/..] normalises like
    [p]. *)
Theorem cleanPath_parent (p x : string)
    (Hx : kept (list_ascii_of_string x)) :
  cleanPath (p +:+ "/" +:+ x +:+ "/..") = cleanPath p.
Proof.
  apply cleanPath_by_elements. rewrite path_elements_join.
  rewrite list_ascii_of_string_app.
  change (list_ascii_of_string "/..")
    with ("/"%char :: ["."%char; "."%char]).
  rewrite segments_slash_app.
  rewrite <- (app_nil_r (list_ascii_of_string x)) at 1.
  rewrite segments_app by (apply Hx || reflexivity).
  change (collapse_from (path_elements p)
            ((list_ascii_of_string x :: tail_segments [])
             ++ segments ["."%char; "."%char]))
    with (collapse_step
            (collapse_step (path_elements p) (list_ascii_of_string x))
            ["."%char; "."%char]).
  rewrite (collapse_step_push _ _ Hx), collapse_step_dotdot.
  apply removelast_last.
Qed.

(** X9: [..] cannot climb above the root: leading [..] elements, with or
    without a slash in front, are dropped. *)
Theorem cleanPath_dotdot_at_root (p : string) :
  cleanPath ("../" +:+ p) = cleanPath p
  ∧ cleanPath ("/../" +:+ p) = cleanPath p
  ∧ cleanPath ("/../../" +:+ p) = cleanPath p.
Proof.
  repeat split; apply cleanPath_by_elements.
  - change ("../" +:+ p) with (".." +:+ "/" +:+ p).
    rewrite path_elements_join. reflexivity.
  - change ("/../" +:+ p) with ("/.." +:+ "/" +:+ p).
    rewrite path_elements_join. reflexivity.
  - change ("/../../" +:+ p) with ("/../.." +:+ "/" +:+ p).
    rewrite path_elements_join. reflexivity.
Qed.

End CleanPathJoin.

(** ** More on [cleanPath]: the size of the result *)
Section CleanPathLength.
Import GoPath.

Local Abbreviation total st := (length (flat_map (cons "/"%char) st)).

Lemma total_app (a b : list seg) : total (a ++ b) = total a + total b.
Proof. now rewrite flat_map_app, length_app. Qed.

Lemma total_removelast (st : list seg) : total (removelast st) ≤ total st.
Proof.
  destruct st as [|x st'] using rev_ind; [reflexivity|].
  rewrite removelast_last, total_app. lia.
Qed.

Lemma total_collapse_step (st : list seg) (e : seg) :
  total (collapse_step st e) ≤ total st + S (length e).
Proof.
  unfold collapse_step. repeat case_decide; try lia.
  - pose proof (total_removelast st). lia.
  - rewrite total_app. simpl. rewrite app_nil_r. lia.
Qed.

Lemma total_collapse_from (es : list seg) : ∀ st,
  total (collapse_from st es) ≤ total st + total es.
Proof.
  induction es as [|e es IH]; intros st; [simpl; lia|].
  rewrite collapse_from_cons.
  specialize (IH (collapse_step st e)).
  pose proof (total_collapse_step st e).
  assert (total (e :: es) = S (length e) + total es)
    by (simpl; rewrite length_app; lia).
  lia.
Qed.

Lemma total_segments s : total (segments s) = S (length s).
Proof.
  induction s as [|c s IH]; [reflexivity|].
  simpl segments. destruct (is_slash c).
  - simpl. now rewrite IH.
  - rewrite (segments_split s) in *. simpl in *. lia.
Qed.

Lemma render_length st : length (render st) ≤ Nat.max 1 (total st).
Proof. destruct st; simpl; lia. Qed.

Lemma string_of_list_ascii_length l :
  String.length (string_of_list_ascii l) = length l.
Proof. induction l; simpl; congruence. Qed.

Lemma list_ascii_of_string_length p :
  length (list_ascii_of_string p) = String.length p.
Proof. induction p; simpl; congruence. Qed.

(** X10: normalisation adds at most the leading slash: the result is at
    most one byte longer than the path, and never longer than a path that
    already starts with a slash. *)
Theorem cleanPath_length (p : string) :
  String.length (cleanPath p) ≤ String.length p + 1
  ∧ String.length (cleanPath (String "/" p)) ≤ String.length (String "/" p).
Proof.
  rewrite !cleanPath_elements, !string_of_list_ascii_length.
  split.
  - pose proof (render_length (path_elements p)) as Hr.
    pose proof (total_collapse_from
                  (segments (list_ascii_of_string p)) []) as Hc.
    rewrite total_segments, list_ascii_of_string_length in Hc.
    unfold path_elements, collapse in *. simpl in Hc. lia.
  - pose proof (render_length (path_elements (String "/" p))) as Hr.
    pose proof (total_collapse_from
                  (segments (list_ascii_of_string p)) []) as Hc.
    rewrite total_segments, list_ascii_of_string_length in Hc.
    change (path_elements (String "/" p))
      with (collapse_from [] (segments (list_ascii_of_string p))) in *.
    simpl in Hc. simpl String.length. lia.
Qed.

End CleanPathLength.

(** ** More on the header projection *)
Section ProjectionFacts.

(** The five header names as [http.Header.Set] stores them. *)
Lemma header_keys :
  textproto.CanonicalMIMEHeaderKey orgIDHeader = "X-Auth-Resource-Org"
  ∧ textproto.CanonicalMIMEHeaderKey spaceIDHeader = "X-Auth-Resource-Space"
  ∧ textproto.CanonicalMIMEHeaderKey accountIDHeader
    = "X-Auth-Resource-Account"
  ∧ textproto.CanonicalMIMEHeaderKey slUserNameHeader
    = "X-Auth-Softlayer-Username"
  ∧ textproto.CanonicalMIMEHeaderKey slAPIKeyHeader
    = "X-Auth-Softlayer-Apikey".
Proof. repeat split; reflexivity. Qed.

Ltac canonical_keys :=
  unfold Header_Set;
  let K1 := fresh in let K2 := fresh in let K3 := fresh in
  let K4 := fresh in let K5 := fresh in
  destruct header_keys as (K1 & K2 & K3 & K4 & K5);
  rewrite ?K1, ?K2, ?K3, ?K4, ?K5; clear K1 K2 K3 K4 K5.

Ltac by_lookup :=
  apply map_eq; intros key; rewrite !lookup_insert;
  repeat case_decide; subst; congruence.

(** X11: projecting an infrastructure-credential header sets two headers,
    the user name and the API key, whatever their values (empty ones
    included), and nothing else.  [http.Header.Set] files the API key under
    the canonical form of its name, [X-Auth-Softlayer-Apikey]; no entry is
    made under the spelling of the constant. *)
Theorem addToRequestHeader_softlayer
    (slUsername slAPIKey : string) (r : rest_Request) :
  let credentials := {| SoftLayerUsername := slUsername;
                        SoftLayerAPIKey := slAPIKey |} in
  ∃ r',
    addToRequestHeader (VSoftlayerHeaderPtr (Some credentials)) r = Some r'
    ∧ header r' = <["X-Auth-Softlayer-Apikey" := [slAPIKey]]>
                    (<["X-Auth-Softlayer-Username" := [slUsername]]>
                       (header r))
    ∧ header r' !! slAPIKeyHeader = header r !! slAPIKeyHeader
    ∧ dom (header r')
      = dom (header r) ∪ {["X-Auth-Softlayer-Username";
                           "X-Auth-Softlayer-Apikey"]}
    ∧ method r' = method r ∧ rawUrl r' = rawUrl r ∧ body r' = body r.
Proof.
  intros credentials. eexists. split; [reflexivity|].
  cbn [header method rawUrl body Set_ SoftLayerUsername SoftLayerAPIKey
       credentials].
  canonical_keys. split; [reflexivity|]. split; [|split].
  - unfold slAPIKeyHeader. now rewrite !lookup_insert_ne.
  - rewrite !dom_insert_L. apply set_eq. intros key.
    rewrite !elem_of_union, !elem_of_singleton. tauto.
  - repeat split.
Qed.

(** X12: whatever value it is given, the projection leaves the method, the
    URL and the body of the request alone, removes no header and changes
    no header outside the five it knows. *)
Theorem addToRequestHeader_frame
    (h : GoValue) (r r' : rest_Request)
    (Hadded : addToRequestHeader h r = Some r') :
  method r' = method r ∧ rawUrl r' = rawUrl r ∧ body r' = body r
  ∧ dom (header r) ⊆ dom (header r')
  ∧ ∀ key,
      key ∉ ["X-Auth-Resource-Org"; "X-Auth-Resource-Space";
             "X-Auth-Resource-Account"; "X-Auth-Softlayer-Username";
             "X-Auth-Softlayer-Apikey"] →
      header r' !! key = header r !! key.
Proof.
  destruct h as [|[t|]|[sl|]| | | |]; simplify_eq/=;
    (split; [reflexivity|]); (split; [reflexivity|]);
    (split; [reflexivity|]); canonical_keys; split; try done.
  - intros key Hkey. rewrite !dom_insert_L, !elem_of_union. tauto.
  - intros key Hkey. set_unfold in Hkey.
    rewrite !lookup_insert_ne by (intros <-; apply Hkey; tauto).
    reflexivity.
  - intros key Hkey. rewrite !dom_insert_L, !elem_of_union. tauto.
  - intros key Hkey. set_unfold in Hkey.
    rewrite !lookup_insert_ne by (intros <-; apply Hkey; tauto).
    reflexivity.
Qed.

(** X13: of two routing headers of the same kind the later one wins: the
    request ends up as if only the later one had been given (so giving the
    same header twice is giving it once). *)
Theorem addToRequestHeader_last_wins
    (t1 t2 : ClusterTargetHeader) (s1 s2 : ClusterSoftlayerHeader)
    (r : rest_Request) :
  addAllToRequestHeader
    [VTargetHeaderPtr (Some t1); VTargetHeaderPtr (Some t2)] r
  = addToRequestHeader (VTargetHeaderPtr (Some t2)) r
  ∧ addAllToRequestHeader
      [VSoftlayerHeaderPtr (Some s1); VSoftlayerHeaderPtr (Some s2)] r
    = addToRequestHeader (VSoftlayerHeaderPtr (Some s2)) r.
Proof.
  split; cbn; unfold Set_; cbn [method rawUrl header body];
    do 2 f_equal; canonical_keys; by_lookup.
Qed.

(** X14: a tenant header and an infrastructure-credential header do not
    interfere: given in either order they produce the same request. *)
Theorem addToRequestHeader_kinds_commute
    (t : ClusterTargetHeader) (s : ClusterSoftlayerHeader)
    (r : rest_Request) :
  addAllToRequestHeader
    [VTargetHeaderPtr (Some t); VSoftlayerHeaderPtr (Some s)] r
  = addAllToRequestHeader
      [VSoftlayerHeaderPtr (Some s); VTargetHeaderPtr (Some t)] r.
Proof.
  cbn. unfold Set_. cbn [method rawUrl header body].
  do 2 f_equal. canonical_keys. by_lookup.
Qed.

End ProjectionFacts.

(** ** The resource methods *)
Section ResourceFacts.

Variable Env : Type.
Variable UserAgent : string.
Variable errorText : error → string.
Variable DefaultClient : Transport Env.

#[local] Existing Instance M_ret.
#[local] Existing Instance M_bind.

Local Abbreviation Delete :=
  (clusters_Delete Env UserAgent errorText DefaultClient).
Local Abbreviation UnsetCredentials :=
  (clusters_UnsetCredentials Env UserAgent errorText DefaultClient).
Local Abbreviation SetCredentials :=
  (clusters_SetCredentials Env UserAgent errorText DefaultClient).
Local Abbreviation UnBindService :=
  (clusters_UnBindService Env UserAgent errorText DefaultClient).
Local Abbreviation AddSubnet :=
  (subnet_AddSubnet Env UserAgent errorText DefaultClient).

(** [c.url] returns without touching the world. *)
Lemma url_returns (c : clusterClient Env) (path : string) (w : World Env) :
  ∃ u, url Env c path w = Returns u w.
Proof.
  unfold url. destruct (BaseURL c); eexists; reflexivity.
Qed.

(** One nil pointer of a known type among the routing headers makes the
    loop over them panic. *)
Lemma addAllToRequestHeader_nil_pointer (targetHeader : list GoValue) :
  VTargetHeaderPtr None ∈ targetHeader
  ∨ VSoftlayerHeaderPtr None ∈ targetHeader →
  ∀ r, addAllToRequestHeader targetHeader r = None.
Proof.
  induction targetHeader as [|h hs IH]; intros Hin r.
  { destruct Hin as [Hin|Hin]; inversion Hin. }
  cbn. destruct (addToRequestHeader h r) as [r1|] eqn:Hh; [|reflexivity].
  cbn. apply IH.
  destruct Hin as [Hin|Hin]; apply elem_of_cons in Hin as [<-|Hin];
    try discriminate; auto.
Qed.

(** X15: a nil [target] makes each of these methods panic on the spot: the
    type switch takes the case of the pointer type and reads a field
    through the nil pointer.  Nothing has been sent and no collaborator has
    been called by then: the world is as it was. *)
Theorem nil_target_panics
    (c : clusterClient Env) (w : World Env)
    (name subnetID slUsername slAPIKey : string)
    (clusterNameOrID namespaceID serviceInstanceGUID : string) :
  Delete c name None w = Panics w
  ∧ UnsetCredentials c None w = Panics w
  ∧ SetCredentials c slUsername slAPIKey None w = Panics w
  ∧ UnBindService c clusterNameOrID namespaceID serviceInstanceGUID None w
    = Panics w
  ∧ AddSubnet c name subnetID None w = Panics w.
Proof.
  unfold clusters_Delete, clusters_UnsetCredentials, clusters_SetCredentials,
    clusters_UnBindService, subnet_AddSubnet, only_err, delete, post, put,
    dispatch.
  unfold mbind, M_bind.
  repeat split;
    match goal with
    | |- context [url Env c ?path w] =>
        destruct (url_returns c path w) as [u ->]
    end; reflexivity.
Qed.

(** X16: every primitive handed a routing-header list that holds a nil
    pointer of one of the two known types panics before anything is sent,
    wherever in the list the pointer stands: the world is as it was. *)
Theorem primitives_nil_pointer_panic
    (c : clusterClient Env) (w : World Env) (path : string)
    (data respV : GoValue) (targetHeader : list GoValue)
    (Hnil : VTargetHeaderPtr None ∈ targetHeader
            ∨ VSoftlayerHeaderPtr None ∈ targetHeader) :
  get Env UserAgent errorText DefaultClient c path respV targetHeader w
  = Panics w
  ∧ put Env UserAgent errorText DefaultClient c path data respV
      targetHeader w = Panics w
  ∧ patch Env UserAgent errorText DefaultClient c path data respV
      targetHeader w = Panics w
  ∧ post Env UserAgent errorText DefaultClient c path data respV
      targetHeader w = Panics w
  ∧ delete Env UserAgent errorText DefaultClient c path targetHeader w
    = Panics w.
Proof.
  unfold get, put, patch, post, delete, dispatch, mbind, M_bind.
  destruct (url_returns c path w) as [u ->].
  rewrite !(addAllToRequestHeader_nil_pointer targetHeader Hnil).
  repeat split.
Qed.

(** X17: [SetCredentials] with a tenant target posts to the credentials
    path a request without payload whose headers are the three of the
    tenant and the two of the infrastructure account, five in all; user
    name and API key travel in headers only. *)
Theorem SetCredentials_request
    (c : clusterClient Env) (slUsername slAPIKey : string)
    (target : ClusterTargetHeader) (w : World Env) :
  let headers : Header :=
    {[ "X-Auth-Resource-Org" := [OrgID target];
       "X-Auth-Resource-Space" := [SpaceID target];
       "X-Auth-Resource-Account" := [AccountID target];
       "X-Auth-Softlayer-Username" := [slUsername];
       "X-Auth-Softlayer-Apikey" := [slAPIKey] ]} in
  SetCredentials c slUsername slAPIKey (Some target) w
  = only_err Env
      (rawUrl ← url Env c "/v1/credentials";
       sendRequest Env UserAgent errorText DefaultClient c
         {| method := "POST"; rawUrl := rawUrl; header := headers;
            body := Some VNil |} VNil) w
  ∧ size headers = 5.
Proof.
  intros headers. split.
  - unfold clusters_SetCredentials, only_err, post, dispatch, mbind, M_bind.
    destruct (url_returns c "/v1/credentials" w) as [u ->].
    cbn [addAllToRequestHeader addToRequestHeader mbind option_bind
         SoftLayerUsername SoftLayerAPIKey].
    unfold Set_, Body, PostRequest, new_rest_Request.
    cbn [method rawUrl header body].
    replace (Header_Set slAPIKeyHeader slAPIKey
               (Header_Set slUserNameHeader slUsername
                  (Header_Set accountIDHeader (AccountID target)
                     (Header_Set spaceIDHeader (SpaceID target)
                        (Header_Set orgIDHeader (OrgID target) ∅)))))
      with headers; [reflexivity|].
    unfold headers, Header_Set.
    destruct header_keys as (-> & -> & -> & -> & ->).
    apply map_eq. intros key. rewrite !lookup_insert.
    repeat case_decide; subst; try congruence; try done.
    rewrite lookup_singleton_ne by done. reflexivity.
  - unfold headers.
    rewrite !map_size_insert_None by (by simplify_map_eq).
    reflexivity.
Qed.


End ResourceFacts.

(** ** The further theorems at work on concrete runs *)

(** [rest.Client.Do] could not build the request: the fresh response it
    returns has no [Request], and reading its host panics. *)
Example sendRequest_panics_when_request_not_built :
  ∃ w',
    Scenario.run (Scenario.client None None) [Scenario.not_sent] = Panics w'
    ∧ http_calls (calls w') = 1.
Proof.
  eexists. split; [vm_compute; reflexivity | reflexivity].
Qed.

(** 401, then a refresher that cannot reach its server. *)
Lemma sendRequest_refresh_failure_witness :
  ∃ w',
    Scenario.run (Scenario.client (Some Scenario.refresher_down) None)
                 [Scenario.unauthorized; Scenario.ok]
    = Returns (Some (Scenario.answered 401),
               Some (ErrorString
                       ("Authentication failed, Unable to refresh auth "
                        +:+ "token: iam: connection refused. "
                        +:+ "Try again later"))) w'
    ∧ http_calls (calls w') = 1.
Proof.
  edestruct (sendRequest_refresh_failure
               Scenario.Env Scenario.UserAgent Scenario.errorText
               Scenario.scripted
               (Scenario.client (Some Scenario.refresher_down) None)
               Scenario.request Scenario.request VNil
               (Scenario.world [Scenario.unauthorized; Scenario.ok]))
    as (Hrun & Hhttp);
    [reflexivity | reflexivity | reflexivity
     | right; eexists; reflexivity | reflexivity | reflexivity
     | discriminate |].
  eexists. split; [exact Hrun | exact Hhttp].
Defined.

(** A plain 200. *)
Lemma sendRequest_success_witness :
  Scenario.run (Scenario.client (Some Scenario.refresher_ok) None)
               [Scenario.ok]
  = Returns Scenario.ok
      {| store := {| config := {| IAMAccessToken := "stale" |}; env := [] |};
         calls := [CallDo (DefaultClusterAuthHeader Scenario.UserAgent
                             {| IAMAccessToken := "stale" |})
                          Scenario.request] |}.
Proof.
  eapply (sendRequest_success
           Scenario.Env Scenario.UserAgent Scenario.errorText
           Scenario.scripted
           (Scenario.client (Some Scenario.refresher_ok) None)
           Scenario.request Scenario.request VNil
           (Scenario.world [Scenario.ok]) _ _ (Scenario.answered 200)).
  - reflexivity.
  - reflexivity.
  - left. discriminate.
Defined.

(** A 404 that the [OnError] hook rewrites. *)
Lemma sendRequest_on_error_witness :
  ∃ w',
    Scenario.run Scenario.client_with_hook [Scenario.not_found]
    = Returns (Some (Scenario.answered 404),
               Some (ErrorString "cluster service: no such cluster")) w'
    ∧ calls w'
      = [CallDo (DefaultClusterAuthHeader Scenario.UserAgent
                   {| IAMAccessToken := "stale" |}) Scenario.request;
         CallOnError 404 "no such cluster"].
Proof.
  eexists. split.
  - eapply (sendRequest_on_error
             Scenario.Env Scenario.UserAgent Scenario.errorText
             Scenario.scripted Scenario.client_with_hook
             Scenario.request Scenario.request VNil
             (Scenario.world [Scenario.not_found]) _ _
             (Scenario.answered 404) Scenario.host).
    + reflexivity.
    + reflexivity.
    + reflexivity.
    + left. discriminate.
  - reflexivity.
Defined.

(** 401, refresh, then a time-out without response. *)
Lemma sendRequest_nil_response_after_retry_witness :
  ∃ w',
    Scenario.run (Scenario.client (Some Scenario.refresher_ok) None)
                 [Scenario.unauthorized; Scenario.timeout]
    = Returns (None, Some (TransportError "net/http: request canceled")) w'
    ∧ http_calls (calls w') = 2
    ∧ refresh_calls (calls w') = 1.
Proof.
  eexists. split; [vm_compute; reflexivity|].
  apply (sendRequest_nil_response_after_retry
           Scenario.Env Scenario.UserAgent Scenario.errorText
           Scenario.scripted
           (Scenario.client (Some Scenario.refresher_ok) None)
           Scenario.request VNil
           (Scenario.world [Scenario.unauthorized; Scenario.timeout])
           _ (Some (TransportError "net/http: request canceled"))).
  reflexivity.
Defined.

(** [/v1/clusters/..] is [/v1]. *)
Lemma cleanPath_parent_witness :
  cleanPath ("/v1" +:+ "/" +:+ "clusters" +:+ "/..") = cleanPath "/v1".
Proof.
  apply (cleanPath_parent "/v1" "clusters").
  repeat split; try discriminate. repeat constructor.
Defined.

(** A tenant header on a fresh request. *)
Lemma addToRequestHeader_frame_witness :
  let tenant := {| OrgID := "o1"; SpaceID := "s1"; AccountID := "a1" |} in
  ∃ r',
    addToRequestHeader (VTargetHeaderPtr (Some tenant)) Scenario.request
    = Some r'
    ∧ method r' = "GET" ∧ rawUrl r' = "/v1/clusters" ∧ body r' = None
    ∧ header r' !! "User-Agent" = None.
Proof.
  intros tenant. eexists. split; [reflexivity|].
  destruct (addToRequestHeader_frame
              (VTargetHeaderPtr (Some tenant)) Scenario.request _ eq_refl)
    as (Hm & Hu & Hb & _ & Hkeys).
  split; [exact Hm|]. split; [exact Hu|]. split; [exact Hb|].
  rewrite Hkeys; [reflexivity|].
  intros Hin. repeat (apply elem_of_cons in Hin as [Hin|Hin];
                      [discriminate|]).
  inversion Hin.
Defined.

(** [List(nil)] and the like: a nil tenant pointer handed to [get]. *)
Lemma primitives_nil_pointer_panic_witness :
  get Scenario.Env Scenario.UserAgent Scenario.errorText Scenario.scripted
      Scenario.client_with_base "/v1/clusters" VNil [VTargetHeaderPtr None]
      (Scenario.world [Scenario.ok])
  = Panics (Scenario.world [Scenario.ok]).
Proof.
  apply (proj1 (primitives_nil_pointer_panic
                  Scenario.Env Scenario.UserAgent Scenario.errorText
                  Scenario.scripted Scenario.client_with_base
                  (Scenario.world [Scenario.ok]) "/v1/clusters" VNil VNil
                  [VTargetHeaderPtr None]
                  (or_introl (list_elem_of_here _ _)))).
Defined.

